(** * pl::Status (src/common/base/status.h): a shallow embedding over an explicit heap

    A [Status] holds a [std::unique_ptr<State>]; a [State] holds a code, a
    message and a [std::unique_ptr<google::protobuf::Any>].  Several
    properties of the class are about ownership (deep copies, no sharing,
    pointer comparison in [operator==] and [operator=]), so the model keeps
    the two kinds of heap objects in finite maps indexed by addresses and
    threads the memory through every operation.  Dereferencing or deleting
    an address that is not allocated is undefined behaviour in C++; the
    model makes such a run fail ([None]). *)

From stdpp Require Import base option gmap strings.

(** ** External collaborators *)

(** [pl::statuspb::Code] is generated from a proto file that is not part of
    the header.  The header only relies on a distinguished member [OK] and
    on comparing codes, so the registry is kept abstract. *)
Class CodeRegistry (Code : Type) := {
  OK : Code;
  Code_eq_dec :: EqDecision Code;
}.

(** Heap addresses. *)
Abbreviation loc := positive.

(** [google::protobuf::Any]: a type identifier and the packed bytes. *)
Record Any := mkAny { type_url : string; value : string }.

#[global] Instance Any_eq_dec : EqDecision Any.
Proof. solve_decision. Defined.

(** What [Any::New()] returns: a default-constructed message. *)
Definition Any_New : Any := {| type_url := ""; value := "" |}.

Section status.
Context {Code : Type} `{!CodeRegistry Code} {U : Type}.

(** ** Data *)

(** [struct State] (status.h, lines 53-71).  [State_context] is the
    [unique_ptr<Any>]: [None] is [nullptr]. *)
Record State := mkState {
  State_code : Code;
  State_msg : string;
  State_context : option loc;
}.

(** [class Status]: its only data member is [unique_ptr<State> state_],
    "null if status is OK". *)
Record Status := mkStatus { state_ : option loc }.

#[global] Instance Status_eq_dec : EqDecision Status.
Proof. solve_decision. Defined.

(** The memory: the allocated [State] records, the allocated [Any]
    payloads, and [env], the rest of the program's state, which no
    operation of the header reads or writes. *)
Record Mem := mkMem {
  states : gmap loc State;
  anys : gmap loc Any;
  env : U;
}.

(** ** The state-and-failure monad *)

Definition M (A : Type) : Type := Mem → option (A * Mem).

#[global] Instance M_ret : MRet M := λ A a m, Some (a, m).

#[global] Instance M_bind : MBind M := λ A B k c m,
  match c m with
  | Some (a, m') => k a m'
  | None => None
  end.

Definition undefined {A} : M A := λ _, None.

(** The value a computation returns, when it returns. *)
Definition result {A} (c : M A) (m : Mem) : option A := fst <$> c m.

(** *** Heap primitives *)

Definition load_state (l : loc) : M State :=
  λ m, match states m !! l with
       | Some st => Some (st, m)
       | None => None
       end.

Definition load_any (a : loc) : M Any :=
  λ m, match anys m !! a with
       | Some x => Some (x, m)
       | None => None
       end.

(** [new State(...)] / [std::make_unique<State>(...)]: any address that is
    not allocated now. *)
Definition new_state (st : State) : M loc :=
  λ m, let l := fresh (dom (states m)) in
       Some (l, {| states := <[l := st]> (states m); anys := anys m; env := env m |}).

Definition new_any (x : Any) : M loc :=
  λ m, let a := fresh (dom (anys m)) in
       Some (a, {| states := states m; anys := <[a := x]> (anys m); env := env m |}).

Definition store_any (a : loc) (x : Any) : M unit :=
  λ m, match anys m !! a with
       | Some _ => Some (tt, {| states := states m; anys := <[a := x]> (anys m); env := env m |})
       | None => None
       end.

Definition free_state (l : loc) : M unit :=
  λ m, match states m !! l with
       | Some _ => Some (tt, {| states := delete l (states m); anys := anys m; env := env m |})
       | None => None
       end.

Definition free_any (a : loc) : M unit :=
  λ m, match anys m !! a with
       | Some _ => Some (tt, {| states := states m; anys := delete a (anys m); env := env m |})
       | None => None
       end.

(** [p->field] on a [unique_ptr<State>]: dereferencing [nullptr] is
    undefined. *)
Definition arrow (p : option loc) : M State :=
  match p with
  | Some l => load_state l
  | None => undefined
  end.

(** ** The class, as the header defines it *)

(** [Status() = default] and [static Status OK() { return Status(); }]. *)
Definition Status_default : Status := {| state_ := None |}.
Definition Status_OK : Status := Status_default.

(** [bool ok() const { return (state_ == nullptr); }] *)
Definition ok (s : Status) : bool := bool_decide (state_ s = None).

(** [code() const { return ok() ? pl::statuspb::OK : state_->code; }] *)
Definition code (s : Status) : M Code :=
  if ok s then mret OK else st ← arrow (state_ s); mret (State_code st).

(** [msg() const { return ok() ? empty_string() : state_->msg; }];
    [empty_string()] is a reference to a static empty [std::string]. *)
Definition empty_string : string := "".

Definition msg (s : Status) : M string :=
  if ok s then mret empty_string else st ← arrow (state_ s); mret (State_msg st).

(** [context() const { return ok() ? nullptr : state_->context.get(); }] *)
Definition context (s : Status) : M (option loc) :=
  if ok s then mret None else st ← arrow (state_ s); mret (State_context st).

(** [has_context() const { return ok() ? false : state_->context != nullptr; }] *)
Definition has_context (s : Status) : M bool :=
  if ok s then mret false
  else st ← arrow (state_ s); mret (bool_decide (State_context st ≠ None)).

(** *** Copying (status.h, lines 82-94) *)

(** [State::State(const State& state)]: the code and the message are
    copied; a context is cloned into a new [Any] ([New()] then
    [CopyFrom]). *)
Definition State_copy (state : loc) : M State :=
  src ← load_state state;
  match State_context src with
  | None =>
      mret {| State_code := State_code src; State_msg := State_msg src;
              State_context := None |}
  | Some a =>
      c ← new_any Any_New;
      x ← load_any a;
      store_any c x;;
      mret {| State_code := State_code src; State_msg := State_msg src;
              State_context := Some c |}
  end.

(** [Status(const Status& s)]:
    [state_((s.state_ == nullptr) ? nullptr : new State( *s.state_ ))]. *)
Definition Status_copy (s : Status) : M Status :=
  match state_ s with
  | None => mret {| state_ := None |}
  | Some l => st ← State_copy l; l' ← new_state st; mret {| state_ := Some l' |}
  end.

(** *** Destruction *)

(** What [unique_ptr<State>] does when it lets go of a [State]: the
    implicit [~State()] releases the context, then the record is freed. *)
Definition State_delete (l : loc) : M unit :=
  st ← load_state l;
  match State_context st with
  | None => mret ()
  | Some a => free_any a
  end;;
  free_state l.

(** [~Status()], also the effect of [state_ = nullptr] on the old
    pointee. *)
Definition Status_destroy (s : Status) : M unit :=
  match state_ s with
  | None => mret ()
  | Some l => State_delete l
  end.

(** *** Assignment (status.h, lines 96-106) *)

(** [void operator=(const Status& s)], returning the new value of
    [*this].  [make_unique<State>( *s.state_ )] is evaluated before the
    move-assignment releases the old pointee. *)
Definition operator_assign (this s : Status) : M Status :=
  if bool_decide (state_ this ≠ state_ s) then
    match state_ s with
    | None => Status_destroy this;; mret {| state_ := None |}
    | Some l =>
        st ← State_copy l;
        l' ← new_state st;
        Status_destroy this;;
        mret {| state_ := Some l' |}
    end
  else mret this.

(** *** Constructors defined in status.cc *)

(** Modelled from the spec: [Status::Status(Code, const std::string&)]
    is declared in the header and defined in status.cc, which is
    missing.  Spec 4.1: "(code, message): constructs a State with no
    context", whatever the code is. *)
Definition Status_code_msg (c : Code) (t : string) : M Status :=
  l ← new_state {| State_code := c; State_msg := t; State_context := None |};
  mret {| state_ := Some l |}.

(** The wire form [pl::statuspb::Status] (spec 6): a code, a message and
    an optional context entry. *)
Record StatusPb := mkStatusPb {
  pb_code : Code;
  pb_msg : string;
  pb_context : option Any;
}.

(** Modelled from the spec: [Status::Status(const pl::statuspb::Status&)]
    is declared in the header and defined in status.cc, which is
    missing.  Spec 3: a status is a success exactly when its code is
    [OK], and a State is "only ever allocated when representing a
    failure; never constructed for success"; spec 4.1: the constructor
    "decodes code and message verbatim; if the wire form carries a
    context entry, stores it as an opaque box".  So a wire value with
    code [OK] gives the success status, and any other one a [State] with
    the code, the message and the boxed context entry. *)
Definition Status_from_pb (pb : StatusPb) : M Status :=
  if bool_decide (pb_code pb = OK) then mret Status_default
  else
    ctx ← match pb_context pb with
          | None => mret None
          | Some x => a ← new_any x; mret (Some a)
          end;
    l ← new_state {| State_code := pb_code pb; State_msg := pb_msg pb;
                     State_context := ctx |};
    mret {| state_ := Some l |}.

(** *** Rendering and equality (status.h, lines 108-112) *)

Section equality.
(** The rendering of a code together with a message (the code names live
    in an external registry). *)
Variable render : Code → string → string.

(** Modelled from the spec: [Status::ToString()] is declared in the
    header and defined in status.cc, which is missing.  Spec 4.1: a
    "deterministic human-readable rendering combining the code's
    name/identifier and the message"; spec 4.2: formatting uses the State
    "only for code/message". *)
Definition ToString (s : Status) : M string :=
  c ← code s; t ← msg s; mret (render c t).

(** [operator==]:
    [(this->state_ == x.state_) || (ToString() == x.ToString())]. *)
Definition operator_eq (this x : Status) : M bool :=
  if bool_decide (state_ this = state_ x) then mret true
  else a ← ToString this; b ← ToString x; mret (bool_decide (a = b)).

(** [operator!=]: [!( *this == x )]. *)
Definition operator_ne (this x : Status) : M bool :=
  b ← operator_eq this x; mret (negb b).

End equality.

(** *** Adapters (status.h, lines 114-129) *)

(** [template <typename T> Status StatusAdapter(const T&)]: one conversion
    per registered type.  The primary template only holds a
    [static_assert]; it has no instance here. *)
Class StatusAdapter (T : Type) := adapt : T → M Status.

(** [StatusAdapter<Status>(const Status& s) { return s; }]: the returned
    object is copy-constructed from the reference. *)
#[global] Instance StatusAdapter_Status : StatusAdapter Status := Status_copy.

(** [StatusAdapter<pl::statuspb::Status>(s) { return Status(s); }] *)
#[global] Instance StatusAdapter_StatusPb : StatusAdapter StatusPb := Status_from_pb.

(** *** PL_RETURN_IF_ERROR (status.h, lines 140-151) *)

(** What the macro asks of the type of its argument besides an adapter:
    an [ok()] member, and a destructor for the temporary that
    [const auto& name = (expr)] keeps alive until the block is left. *)
Class Fallible (T : Type) := {
  Fallible_ok : T → bool;
  Fallible_destroy : T → M unit;
}.

#[global] Instance Fallible_Status : Fallible Status :=
  {| Fallible_ok := ok; Fallible_destroy := Status_destroy |}.

(** [do { const auto& name = (expr);
         if (!name.ok()) { return StatusAdapter(name); } } while (false)]
    inside a function that returns [Status], followed by the rest of that
    function, [rest].  [expr] is a call that returns by value: the
    returned object is constructed first, then the temporary goes away. *)
Definition PL_RETURN_IF_ERROR {T} `{!StatusAdapter T, !Fallible T}
    (expr : M T) (rest : M Status) : M Status :=
  name ← expr;
  if negb (Fallible_ok name) then
    r ← adapt name; Fallible_destroy name;; mret r
  else
    Fallible_destroy name;; rest.

(** ** Ownership and observations *)

(** The ownership discipline of [unique_ptr]: the context pointer of
    every allocated [State] is allocated, and no two [State]s hold the
    same context. *)
Definition wf (m : Mem) : Prop :=
  (∀ l st a, states m !! l = Some st → State_context st = Some a →
             is_Some (anys m !! a)) ∧
  (∀ l1 l2 st1 st2 a, states m !! l1 = Some st1 → states m !! l2 = Some st2 →
             State_context st1 = Some a → State_context st2 = Some a → l1 = l2).

(** A [Status] whose [state_] is null or points to an allocated [State]. *)
Definition live (m : Mem) (s : Status) : Prop :=
  ∀ l, state_ s = Some l → is_Some (states m !! l).

(** [*context()]: the payload behind the context pointer, if any. *)
Definition context_value (s : Status) : M (option Any) :=
  p ← context s;
  match p with
  | None => mret None
  | Some a => x ← load_any a; mret (Some x)
  end.

(** Everything a client can read from a [Status]: [code()], [msg()] and
    the payload behind [context()]. *)
Definition observe (s : Status) : M (Code * string * option Any) :=
  c ← code s; t ← msg s; x ← context_value s; mret (c, t, x).

(** Two [Status] values that share neither a [State] nor a context. *)
Definition separate (m : Mem) (a b : Status) : Prop :=
  (∀ l, state_ a = Some l → state_ b ≠ Some l) ∧
  (∀ p, result (context a) m = Some (Some p) →
        result (context b) m ≠ Some (Some p)).

(** [u] is live in [m'] and reads there as it did in [m], through the
    same context pointer. *)
Definition preserved (m m' : Mem) (u : Status) : Prop :=
  live m' u ∧
  result (observe u) m' = result (observe u) m ∧
  result (context u) m' = result (context u) m.

(** A failure whose stored code is not [OK]. *)
Definition coded (m : Mem) (s : Status) : Prop :=
  ∀ l st, state_ s = Some l → states m !! l = Some st → State_code st ≠ OK.

End status.

Arguments State : clear implicits.
Arguments StatusPb : clear implicits.
Arguments Mem : clear implicits.

(** ** The rest of the header *)

Section glue.
Context {Code : Type} `{!CodeRegistry Code} {U : Type}.

(** *** The [State] constructor that packs a message (status.h, lines 59-67) *)

Section packing.
(** [google::protobuf::Message] and [Any::PackFrom] belong to the protobuf
    library: a type of messages and the packing of one into an [Any]. *)
Variable Message : Type.
Variable PackFrom : Message → Any.

(** [State(Code code, std::string msg,
           std::unique_ptr<google::protobuf::Message> generic_pb_context)]:
    [None] is a null [generic_pb_context], [Some g] one that points to the
    message [g].  With a null argument the constructor returns early and
    [context] stays null; otherwise
    [context = std::make_unique<Any>(); context->PackFrom( *generic_pb_context )]. *)
Definition State_of_message (c : Code) (t : string)
    (generic_pb_context : option Message) : M (Code:=Code) (U:=U) (State Code) :=
  match generic_pb_context with
  | None => mret {| State_code := c; State_msg := t; State_context := None |}
  | Some g =>
      a ← new_any Any_New;
      store_any a (PackFrom g);;
      mret {| State_code := c; State_msg := t; State_context := Some a |}
  end.

End packing.

(** *** Test assertions (status.h, lines 131-136 and 153-161) *)

(** [::testing::AssertionResult]: success, or failure with the text that
    was streamed into it. *)
Inductive AssertionResult : Type :=
  | AssertionSuccess
  | AssertionFailure (explanation : string).

(** What [EXPECT_TRUE] / [ASSERT_TRUE] test on an [AssertionResult]. *)
Definition AssertionResult_bool (r : AssertionResult) : bool :=
  match r with
  | AssertionSuccess => true
  | AssertionFailure _ => false
  end.

Section assertions.
Variable render : Code → string → string.

(** [IsOK(const Status& status)]:
    [if (status.ok()) return AssertionSuccess();
     return AssertionFailure() << status.ToString();] *)
Definition IsOK (status : Status) : M (Code:=Code) (U:=U) AssertionResult :=
  if ok status then mret AssertionSuccess
  else t ← ToString render status; mret (AssertionFailure t).

(** The argument of [EXPECT_TRUE] / [EXPECT_FALSE] in the four macros:
    [IsOK(::pl::StatusAdapter(value))].  The adapter returns a temporary,
    which is destroyed at the end of the full expression. *)
Definition IsOK_StatusAdapter {T} `{!StatusAdapter T} (value : T)
    : M (Code:=Code) (U:=U) AssertionResult :=
  tmp ← adapt value;
  r ← IsOK tmp;
  Status_destroy tmp;;
  mret r.

(** [EXPECT_OK(value)] and [ASSERT_OK(value)]: whether the expectation
    holds. *)
Definition EXPECT_OK {T} `{!StatusAdapter T} (value : T) : M (Code:=Code) (U:=U) bool :=
  r ← IsOK_StatusAdapter value; mret (AssertionResult_bool r).

(** [EXPECT_NOT_OK(value)] and [ASSERT_NOT_OK(value)]. *)
Definition EXPECT_NOT_OK {T} `{!StatusAdapter T} (value : T) : M (Code:=Code) (U:=U) bool :=
  r ← IsOK_StatusAdapter value; mret (negb (AssertionResult_bool r)).

(** *** PL_CHECK_OK (status.h, lines 163-175) *)

(** What a [CHECK] does to the run: it goes on, or the process is aborted
    with the text that was streamed into the check. *)
Inductive Checked : Type :=
  | Continue
  | Abort (log : string).

(** [do { auto _s = (to_call);
         CHECK(_s.ok()) << (msg) << ": " << _s.ToString(); } while (false)]
    for a call that returns a [Status] by value.  The streamed operands
    are only evaluated when the check fails; when it holds, [_s] is
    destroyed at the end of the block. *)
Definition PL_CHECK_OK_PREPEND (to_call : M (Code:=Code) (U:=U) Status) (text : string)
    : M (Code:=Code) (U:=U) Checked :=
  _s ← to_call;
  if ok _s then Status_destroy _s;; mret Continue
  else t ← ToString render _s; mret (Abort (text +:+ ": " +:+ t)).

(** [PL_CHECK_OK(val)] is [PL_CHECK_OK_PREPEND(val, "Bad Status")]. *)
Definition PL_CHECK_OK (val : M (Code:=Code) (U:=U) Status) : M Checked :=
  PL_CHECK_OK_PREPEND val "Bad Status".

End assertions.

(** *** Counting cells *)

(** How many [State] records and how many [Any] payloads a status owns,
    read through [ok()] and [has_context()]. *)
Definition owned (s : Status) : M (Code:=Code) (U:=U) (nat * nat) :=
  has_context s ≫= λ h : bool,
    mret (if ok s then 0 else 1, if h then 1 else 0).

(** How many [State] records and [Any] payloads are allocated. *)
Definition allocated (m : Mem Code U) : nat * nat :=
  (size (states m), size (anys m)).

End glue.

(** ** A concrete registry, for closed instances *)

(** Modelled from the spec: the code enumeration is external; these are
    the members that the header ([OK], [UNIMPLEMENTED]) and the spec
    ([NOT_FOUND]) name. *)
Inductive Code3 : Type := OK3 | NOT_FOUND | UNIMPLEMENTED.

#[global] Instance Code3_eq_dec : EqDecision Code3.
Proof. solve_decision. Defined.

#[global] Instance Code3_registry : CodeRegistry Code3 := {| OK := OK3 |}.

Definition Code3_name (c : Code3) : string :=
  match c with
  | OK3 => "OK"
  | NOT_FOUND => "NOT_FOUND"
  | UNIMPLEMENTED => "UNIMPLEMENTED"
  end.

(** One rendering of a code and a message. *)
Definition render3 (c : Code3) (t : string) : string :=
  Code3_name c +:+ ": " +:+ t.

(** The empty memory; [env] counts the calls of [sub_call] below. *)
Definition mem0 : Mem Code3 nat := {| states := ∅; anys := ∅; env := 0 |}.

(** A memory with two failures that differ in their context only. *)
Definition any1 : Any :=
  {| type_url := "type.googleapis.com/pl.Detail"; value := "payload" |}.

Definition mem2 : Mem Code3 nat :=
  {| states := <[1%positive := mkState NOT_FOUND "missing key" (Some 1%positive)]>
                 (<[2%positive := mkState NOT_FOUND "missing key" None]> ∅);
     anys := <[1%positive := any1]> ∅;
     env := 0 |}.

Definition s1 : Status := {| state_ := Some 1%positive |}.
Definition s2 : Status := {| state_ := Some 2%positive |}.

(** [mem2] with a third failure, again with the same code and message. *)
Definition mem3 : Mem Code3 nat :=
  {| states := <[3%positive := mkState NOT_FOUND "missing key" None]> (states mem2);
     anys := anys mem2;
     env := 0 |}.

Definition s3 : Status := {| state_ := Some 3%positive |}.

(** A packing of messages that are plain strings. *)
Definition pack1 (g : string) : Any :=
  {| type_url := "type.googleapis.com/pl.Detail"; value := g |}.

(** A sub-call with a visible side effect: it counts itself in [env] and
    returns the status built from [c] and [t]. *)
Definition sub_call (c : Code3) (t : string) : M (Code:=Code3) (U:=nat) Status :=
  λ m, Status_code_msg c t
         {| states := states m; anys := anys m; env := S (env m) |}.

(** The memory that [sub_call NOT_FOUND "missing key"] leaves when run in
    [mem0]; the status it returns there is [s1]. *)
Definition mem1 : Mem Code3 nat :=
  {| states := <[1%positive := mkState NOT_FOUND "missing key" None]> ∅;
     anys := ∅;
     env := 1 |}.

(** A sub-call that counts itself and succeeds. *)
Definition sub_call_ok : M (Code:=Code3) (U:=nat) Status :=
  λ m, Some (Status_OK, {| states := states m; anys := anys m; env := S (env m) |}).

(** * Properties *)

Section properties.
Context {Code : Type} `{!CodeRegistry Code} {U : Type}.
Implicit Types (m : Mem Code U) (s t : Status) (st : State Code) (l a : loc).

(** ** How the operations run *)

Lemma bind_run {A B} (c : M (Code:=Code) (U:=U) A) (k : A → M B) m :
  (c ≫= k) m = match c m with Some (x, m') => k x m' | None => None end.
Proof. reflexivity. Qed.

Lemma ok_Some s l : state_ s = Some l → ok s = false.
Proof. intros E. unfold ok. rewrite E. reflexivity. Qed.

Lemma ok_None s : state_ s = None → ok s = true.
Proof. intros E. unfold ok. rewrite E. reflexivity. Qed.

Lemma ok_true_iff s : ok s = true ↔ state_ s = None.
Proof. unfold ok. apply bool_decide_eq_true. Qed.

Lemma code_stored m s l st :
  state_ s = Some l → states m !! l = Some st → code s m = Some (State_code st, m).
Proof.
  intros Es El. unfold code. rewrite (ok_Some _ _ Es), Es. simpl.
  rewrite bind_run. unfold load_state. rewrite El. reflexivity.
Qed.

Lemma msg_stored m s l st :
  state_ s = Some l → states m !! l = Some st → msg s m = Some (State_msg st, m).
Proof.
  intros Es El. unfold msg. rewrite (ok_Some _ _ Es), Es. simpl.
  rewrite bind_run. unfold load_state. rewrite El. reflexivity.
Qed.

Lemma context_stored m s l st :
  state_ s = Some l → states m !! l = Some st →
  context s m = Some (State_context st, m).
Proof.
  intros Es El. unfold context. rewrite (ok_Some _ _ Es), Es. simpl.
  rewrite bind_run. unfold load_state. rewrite El. reflexivity.
Qed.

Lemma has_context_stored m s l st :
  state_ s = Some l → states m !! l = Some st →
  has_context s m = Some (bool_decide (State_context st ≠ None), m).
Proof.
  intros Es El. unfold has_context. rewrite (ok_Some _ _ Es), Es. simpl.
  rewrite bind_run. unfold load_state. rewrite El. reflexivity.
Qed.

Lemma code_success m s : state_ s = None → code s m = Some (OK, m).
Proof. intros E. unfold code. rewrite (ok_None _ E). reflexivity. Qed.

Lemma msg_success m s : state_ s = None → msg s m = Some (empty_string, m).
Proof. intros E. unfold msg. rewrite (ok_None _ E). reflexivity. Qed.

(** ** The success factory *)

(** C3: the status returned by [Status::OK()] is [ok()], its [code()] is
    [OK], its [msg()] is the empty string, [has_context()] is false and
    [context()] is the null pointer, in every memory, and reading it
    leaves the memory as it is. *)
Theorem Status_OK_observations m :
  ok Status_OK = true ∧
  code Status_OK m = Some (OK, m) ∧
  msg Status_OK m = Some ("", m) ∧
  has_context Status_OK m = Some (false, m) ∧
  context Status_OK m = Some (None, m).
Proof. repeat split. Qed.

(** ** The (code, message) constructor *)

Lemma Status_code_msg_run (c : Code) (x : string) m :
  let l := fresh (dom (states m)) in
  Status_code_msg c x m =
    Some ({| state_ := Some l |},
          {| states := <[l := mkState c x None]> (states m);
             anys := anys m; env := env m |}).
Proof. reflexivity. Qed.

(** C4: for every code [c] (so for every code other than [OK]) and every
    message [x], the empty one included, [Status(c, x)] is built in any
    memory, is not [ok()], has [code() == c] and [msg() == x], and
    carries no context. *)
Theorem Status_code_msg_observations (c : Code) (x : string) m :
  ∃ s m', Status_code_msg c x m = Some (s, m') ∧
    ok s = false ∧
    code s m' = Some (c, m') ∧
    msg s m' = Some (x, m') ∧
    has_context s m' = Some (false, m') ∧
    context s m' = Some (None, m').
Proof.
  eexists _, _. split; [apply Status_code_msg_run|].
  set (l := fresh (dom (states m))).
  set (m' := {| states := _; anys := _; env := _ |}).
  assert (El : states m' !! l = Some (mkState c x None)) by apply lookup_insert_eq.
  split; [reflexivity|].
  split; [apply (code_stored m' (mkStatus (Some l)) l _ eq_refl El)|].
  split; [apply (msg_stored m' (mkStatus (Some l)) l _ eq_refl El)|].
  split; [apply (has_context_stored m' (mkStatus (Some l)) l _ eq_refl El)|].
  apply (context_stored m' (mkStatus (Some l)) l _ eq_refl El).
Qed.

(** ** The invariant between [ok()] and [code()] *)

(** C1, as amended: [ok()] holds exactly when [state_] is null, and then
    [code()] is [OK]; for a status whose stored code is not [OK],
    [code() == OK] holds exactly when [ok()] does. *)
Theorem ok_iff_code_OK m s :
  live m s → coded m s →
  (ok s = true ↔ state_ s = None) ∧
  (ok s = true → code s m = Some (OK, m)) ∧
  (ok s = true ↔ result (code s) m = Some OK).
Proof.
  intros Hl Hc. split; [apply ok_true_iff|].
  split; [intros E%ok_true_iff; by apply code_success|].
  unfold result. destruct (state_ s) as [l|] eqn:Es.
  - destruct (Hl l Es) as [st El].
    rewrite (code_stored m s l st Es El), (ok_Some s l Es). simpl.
    split; [discriminate|]. intros [= E]. destruct (Hc l st Es El E).
  - rewrite (code_success m s Es), (ok_None s Es). done.
Qed.

(** Statuses built from a code other than [OK] store that code. *)
Lemma Status_code_msg_coded (c : Code) (x : string) m s m' :
  c ≠ OK → Status_code_msg c x m = Some (s, m') → live m' s ∧ coded m' s.
Proof.
  intros Hc. rewrite Status_code_msg_run. intros [= <- <-]. split.
  - intros l [= <-]. simpl. rewrite lookup_insert_eq. eauto.
  - intros l st [= <-]. simpl. rewrite lookup_insert_eq. by intros [= <-].
Qed.

End properties.

Section ownership.
Context {Code : Type} `{!CodeRegistry Code} {U : Type}.
Implicit Types (m : Mem Code U) (s t : Status) (st : State Code) (l a : loc).

(** ** Observations only depend on the owned cells *)

Lemma context_value_run m s :
  context_value s m =
    match context s m with
    | Some (None, m') => Some (None, m')
    | Some (Some a, m') =>
        match anys m' !! a with Some x => Some (Some x, m') | None => None end
    | None => None
    end.
Proof.
  unfold context_value. rewrite bind_run.
  destruct (context s m) as [[[a|] m']|]; try reflexivity.
  rewrite bind_run. unfold load_any. by destruct (anys m' !! a).
Qed.

Lemma observe_success m s :
  state_ s = None → observe s m = Some ((OK, empty_string, None), m).
Proof.
  intros E. unfold observe.
  rewrite bind_run, (code_success m s E), bind_run, (msg_success m s E), bind_run.
  rewrite context_value_run. unfold context. by rewrite (ok_None s E).
Qed.

Lemma observe_stored m s l st :
  state_ s = Some l → states m !! l = Some st →
  observe s m =
    match State_context st with
    | None => Some ((State_code st, State_msg st, None), m)
    | Some a =>
        match anys m !! a with
        | Some x => Some ((State_code st, State_msg st, Some x), m)
        | None => None
        end
    end.
Proof.
  intros Es El. unfold observe.
  rewrite bind_run, (code_stored m s l st Es El).
  rewrite bind_run, (msg_stored m s l st Es El).
  rewrite bind_run, context_value_run, (context_stored m s l st Es El).
  destruct (State_context st) as [a|]; [|reflexivity].
  by destruct (anys m !! a).
Qed.

Lemma observe_dangling m s l :
  state_ s = Some l → states m !! l = None → observe s m = None.
Proof.
  intros Es El. unfold observe, code. rewrite bind_run, (ok_Some s l Es), Es. simpl.
  rewrite bind_run. unfold load_state. by rewrite El.
Qed.

(** A live status of a well-formed memory can be read. *)
Lemma observe_is_Some m s :
  wf m → live m s → is_Some (result (observe s) m).
Proof.
  intros [Hctx _] Hl. unfold result. destruct (state_ s) as [l|] eqn:Es.
  - destruct (Hl l Es) as [st El]. rewrite (observe_stored m s l st Es El).
    destruct (State_context st) as [a|] eqn:Ea; [|by eexists].
    destruct (Hctx l st a El Ea) as [x ->]. by eexists.
  - rewrite (observe_success m s Es). by eexists.
Qed.

(** Two memories that agree on the [State] of [s] and on its context
    give the same observations of [s]. *)
Lemma observe_agree m m' s :
  (∀ l, state_ s = Some l → states m' !! l = states m !! l) →
  (∀ l st a, state_ s = Some l → states m !! l = Some st →
             State_context st = Some a → anys m' !! a = anys m !! a) →
  result (observe s) m' = result (observe s) m.
Proof.
  intros Hs Ha. unfold result. destruct (state_ s) as [l|] eqn:Es.
  - specialize (Hs l eq_refl). destruct (states m !! l) as [st|] eqn:El.
    + rewrite (observe_stored m s l st Es El), (observe_stored m' s l st Es Hs).
      destruct (State_context st) as [a|] eqn:Ea; [|reflexivity].
      rewrite (Ha l st a eq_refl El Ea). by destruct (anys m !! a).
    + by rewrite (observe_dangling m s l Es El), (observe_dangling m' s l Es Hs).
  - by rewrite !observe_success.
Qed.

Lemma context_agree m m' s :
  (∀ l, state_ s = Some l → states m' !! l = states m !! l) →
  result (context s) m' = result (context s) m.
Proof.
  intros Hs. unfold result, context. destruct (state_ s) as [l|] eqn:Es.
  - rewrite (ok_Some s l Es). simpl. rewrite !bind_run. unfold load_state.
    rewrite (Hs l eq_refl). by destruct (states m !! l).
  - by rewrite (ok_None s Es).
Qed.

(** The readers leave the memory as it is. *)
Lemma observe_pure m s v m' : observe s m = Some (v, m') → m' = m.
Proof.
  destruct (state_ s) as [l|] eqn:Es.
  - destruct (states m !! l) as [st|] eqn:El.
    + rewrite (observe_stored m s l st Es El).
      destruct (State_context st); [destruct (anys m !! _)|]; congruence.
    + by rewrite (observe_dangling m s l Es El).
  - rewrite (observe_success m s Es). congruence.
Qed.

Lemma observe_code_msg m s c x p :
  result (observe s) m = Some (c, x, p) →
  code s m = Some (c, m) ∧ msg s m = Some (x, m).
Proof.
  unfold result. destruct (state_ s) as [l|] eqn:Es.
  - destruct (states m !! l) as [st|] eqn:El.
    + rewrite (observe_stored m s l st Es El).
      rewrite (code_stored m s l st Es El), (msg_stored m s l st Es El).
      destruct (State_context st); [destruct (anys m !! _)|]; simpl;
        intros; by simplify_eq.
    + by rewrite (observe_dangling m s l Es El).
  - rewrite (observe_success m s Es), (code_success m s Es), (msg_success m s Es).
    simpl. intros; by simplify_eq.
Qed.

(** ** Allocation and release keep the ownership discipline *)

Lemma fresh_state_None m : states m !! fresh (dom (states m)) = None.
Proof. apply not_elem_of_dom, is_fresh. Qed.

Lemma fresh_any_None m : anys m !! fresh (dom (anys m)) = None.
Proof. apply not_elem_of_dom, is_fresh. Qed.

Lemma wf_alloc m l st :
  wf m → states m !! l = None → State_context st = None →
  wf {| states := <[l := st]> (states m); anys := anys m; env := env m |}.
Proof.
  intros [Hctx Hinj] Hl Hst. split; simpl.
  - intros l0 st0 a0 [[<- <-]|[_ E]]%lookup_insert_Some Ea; [congruence|eauto].
  - intros l1 l2 st1 st2 a0 [[<- <-]|[_ E1]]%lookup_insert_Some
      [[<- <-]|[_ E2]]%lookup_insert_Some; try congruence. eauto.
Qed.

Lemma wf_alloc_ctx m l st c x :
  wf m → states m !! l = None → anys m !! c = None → State_context st = Some c →
  wf {| states := <[l := st]> (states m); anys := <[c := x]> (anys m); env := env m |}.
Proof.
  intros [Hctx Hinj] Hl Hc Hst.
  assert (Hother : ∀ l0 st0, states m !! l0 = Some st0 → State_context st0 ≠ Some c).
  { intros l0 st0 E0 Ea. destruct (Hctx l0 st0 c E0 Ea) as [y Hy]. congruence. }
  split; simpl.
  - intros l0 st0 a0 [[<- <-]|[_ E]]%lookup_insert_Some Ea.
    + assert (a0 = c) as -> by congruence. rewrite lookup_insert_eq. eauto.
    + rewrite lookup_insert_ne; [eauto|]. intros <-. by eapply Hother.
  - intros l1 l2 st1 st2 a0 [[<- <-]|[_ E1]]%lookup_insert_Some
      [[<- <-]|[_ E2]]%lookup_insert_Some E E'; try done.
    + rewrite Hst in E. simplify_eq. by destruct (Hother _ _ E2).
    + rewrite Hst in E'. simplify_eq. by destruct (Hother _ _ E1).
    + eauto.
Qed.

Lemma wf_free m l st :
  wf m → states m !! l = Some st →
  wf {| states := delete l (states m);
        anys := match State_context st with
                | Some a => delete a (anys m)
                | None => anys m
                end;
        env := env m |}.
Proof.
  intros [Hctx Hinj] Hl. split; simpl.
  - intros l0 st0 a0 [Hne E]%lookup_delete_Some Ea.
    destruct (State_context st) as [a|] eqn:Est; [|eauto].
    rewrite lookup_delete_ne; [eauto|].
    intros <-. apply Hne. eauto.
  - intros l1 l2 st1 st2 a0 [_ E1]%lookup_delete_Some [_ E2]%lookup_delete_Some.
    eauto.
Qed.

(** ** Running the copy constructors and the destructor *)

Lemma State_copy_plain m l st :
  states m !! l = Some st → State_context st = None →
  State_copy l m = Some (st, m).
Proof.
  intros El Ea. unfold State_copy. rewrite bind_run. unfold load_state.
  rewrite El, Ea. destruct st; simpl in *; by subst.
Qed.

Lemma State_copy_ctx m l st a x :
  states m !! l = Some st → State_context st = Some a → anys m !! a = Some x →
  let c := fresh (dom (anys m)) in
  State_copy l m =
    Some (mkState (State_code st) (State_msg st) (Some c),
          {| states := states m; anys := <[c := x]> (anys m); env := env m |}).
Proof.
  intros El Ea Ex.
  assert (fresh (dom (anys m)) ≠ a) as Hne.
  { intros E. pose proof (fresh_any_None m) as F. rewrite E in F. congruence. }
  intros c. unfold State_copy. rewrite bind_run. unfold load_state.
  rewrite El, Ea, bind_run. unfold new_any. fold c.
  rewrite bind_run. unfold load_any. simpl.
  rewrite lookup_insert_ne, Ex by done.
  rewrite bind_run. unfold store_any. simpl.
  by rewrite lookup_insert_eq, insert_insert_eq.
Qed.

Lemma State_delete_run m l st :
  states m !! l = Some st →
  (∀ a, State_context st = Some a → is_Some (anys m !! a)) →
  State_delete l m =
    Some ((), {| states := delete l (states m);
                 anys := match State_context st with
                         | Some a => delete a (anys m)
                         | None => anys m
                         end;
                 env := env m |}).
Proof.
  intros El Ha. unfold State_delete. rewrite bind_run. unfold load_state.
  rewrite El, bind_run. destruct (State_context st) as [a|].
  - destruct (Ha a eq_refl) as [x Ex]. unfold free_any, free_state.
    rewrite Ex. simpl. by rewrite El.
  - unfold free_state. simpl. by rewrite El.
Qed.

Lemma preserved_refl m u : live m u → preserved m m u.
Proof. by intros H. Qed.

Lemma preserved_trans m1 m2 m3 u :
  preserved m1 m2 u → preserved m2 m3 u → preserved m1 m3 u.
Proof. intros (_ & E1 & E2) (L & E3 & E4). split; [done|]. split; congruence. Qed.

(** Growing the memory does not change what a live status reads. *)
Lemma preserved_grow m m' u :
  states m ⊆ states m' → anys m ⊆ anys m' → wf m → live m u →
  preserved m m' u.
Proof.
  intros Hs Ha [Hctx _] Hl.
  assert (Hst : ∀ l, state_ u = Some l → states m' !! l = states m !! l).
  { intros l [st El]%Hl. rewrite El. by eapply lookup_weaken. }
  split; [|split].
  - intros l E. rewrite (Hst l E). auto.
  - apply observe_agree; [done|]. intros l st a _ El Ea.
    destruct (Hctx l st a El Ea) as [x Ex]. rewrite Ex. by eapply lookup_weaken.
  - by apply context_agree.
Qed.

Lemma context_Some_allocated m u a :
  wf m → result (context u) m = Some (Some a) → is_Some (anys m !! a).
Proof.
  intros [Hctx _]. unfold result. destruct (state_ u) as [l|] eqn:Eu.
  - destruct (states m !! l) as [st|] eqn:El.
    + rewrite (context_stored m u l st Eu El). simpl. intros [= Ea]. eauto.
    + unfold context. rewrite (ok_Some u l Eu), Eu. simpl.
      rewrite bind_run. unfold load_state. by rewrite El.
  - unfold context. by rewrite (ok_None u Eu).
Qed.

(** The copy constructor: the copy reads as the original, lives in cells
    that were not allocated before, and nothing that was allocated is
    touched. *)
Lemma Status_copy_spec m s :
  wf m → live m s →
  ∃ c m', Status_copy s m = Some (c, m') ∧
    wf m' ∧ live m' c ∧ env m' = env m ∧ ok c = ok s ∧
    states m ⊆ states m' ∧ anys m ⊆ anys m' ∧
    (∀ l, state_ c = Some l → states m !! l = None) ∧
    (∀ a, result (context c) m' = Some (Some a) → anys m !! a = None) ∧
    result (observe c) m' = result (observe s) m.
Proof.
  intros Hwf Hl. unfold Status_copy. destruct (state_ s) as [l|] eqn:Es.
  - destruct (Hl l Es) as [st El].
    pose proof (fresh_state_None m) as Hf.
    unfold result. rewrite (ok_Some s l Es), (observe_stored m s l st Es El).
    destruct (State_context st) as [a|] eqn:Ea.
    + destruct Hwf as [Hctx Hinj]. destruct (Hctx l st a El Ea) as [x Ex].
      pose proof (fresh_any_None m) as Hc.
      rewrite bind_run, (State_copy_ctx m l st a x El Ea Ex). simpl.
      rewrite bind_run. unfold new_state. simpl.
      set (c := fresh (dom (anys m))) in *. set (l' := fresh (dom (states m))) in *.
      set (st' := mkState _ _ _). set (m' := {| states := <[l' := st']> _ |}).
      assert (El' : states m' !! l' = Some st') by apply lookup_insert_eq.
      eexists (mkStatus (Some l')), m'. split; [reflexivity|].
      split; [by apply wf_alloc_ctx|].
      split; [intros ? [= <-]; eauto|].
      do 2 (split; [reflexivity|]).
      split; [by apply insert_subseteq|]. split; [by apply insert_subseteq|].
      split; [by intros ? [= <-]|].
      split.
      * unfold result. rewrite (context_stored m' (mkStatus (Some l')) l' st' eq_refl El'). simpl.
        by intros ? [= <-].
      * rewrite Ex. rewrite (observe_stored m' (mkStatus (Some l')) l' st' eq_refl El'). simpl.
        by rewrite lookup_insert_eq.
    + rewrite bind_run, (State_copy_plain m l st El Ea). simpl.
      rewrite bind_run. unfold new_state. simpl.
      set (l' := fresh (dom (states m))) in *. set (m' := {| states := <[l' := st]> _ |}).
      assert (El' : states m' !! l' = Some st) by apply lookup_insert_eq.
      eexists (mkStatus (Some l')), m'. split; [reflexivity|].
      split; [by apply wf_alloc|].
      split; [intros ? [= <-]; eauto|].
      do 2 (split; [reflexivity|]).
      split; [by apply insert_subseteq|]. split; [done|].
      split; [by intros ? [= <-]|].
      split.
      * unfold result. rewrite (context_stored m' (mkStatus (Some l')) l' st eq_refl El'). simpl.
        by rewrite Ea.
      * rewrite (observe_stored m' (mkStatus (Some l')) l' st eq_refl El'). by rewrite Ea.
  - eexists (mkStatus None), m. split; [reflexivity|].
    rewrite (ok_None s Es).
    split; [done|]. split; [by intros ? [=]|].
    do 4 (split; [done|]). split; [by intros ? [=]|].
    split; [by intros ? [=]|].
    unfold result. by rewrite (observe_success m s Es).
Qed.

(** The destructor: the [State] of [s] and its context are released; a
    status that does not share the [State] of [s] reads as before. *)
Lemma Status_destroy_spec m s :
  wf m → live m s →
  ∃ m', Status_destroy s m = Some ((), m') ∧
    wf m' ∧ env m' = env m ∧
    (∀ l, state_ s = Some l → states m' !! l = None) ∧
    (∀ u, live m u → (∀ l, state_ u = Some l → state_ s ≠ Some l) →
          preserved m m' u).
Proof.
  intros Hwf Hl. unfold Status_destroy. destruct (state_ s) as [l|] eqn:Es.
  - destruct (Hl l Es) as [st El]. pose proof Hwf as [Hctx Hinj].
    rewrite (State_delete_run m l st El (λ a, Hctx l st a El)).
    eexists. split; [reflexivity|]. split; [by apply wf_free|].
    split; [done|]. split; [intros ? [= <-]; apply lookup_delete_eq|].
    intros u Hu Hne.
    assert (Hst : ∀ l0, state_ u = Some l0 →
              delete l (states m) !! l0 = states m !! l0).
    { intros l0 E0. apply lookup_delete_ne. intros <-. by apply (Hne l). }
    split; [|split].
    + intros l0 E0. simpl. rewrite (Hst l0 E0). auto.
    + apply observe_agree; [done|]. simpl. intros l0 st0 a0 E0 El0 Ea0.
      destruct (State_context st) as [a|] eqn:Ea; [|done].
      apply lookup_delete_ne. intros <-.
      apply (Hne l0 E0). f_equal. eauto.
    + by apply context_agree.
  - exists m. split; [reflexivity|]. split; [done|]. split; [done|].
    split; [done|]. intros u Hu _. by apply preserved_refl.
Qed.

Lemma Status_eq s t : state_ s = state_ t → s = t.
Proof. destruct s, t. simpl. congruence. Qed.

(** With a non-null right-hand side, assignment is a copy of [t]
    followed by the release of what [s] held. *)
Lemma operator_assign_copy m s t l :
  state_ s ≠ state_ t → state_ t = Some l →
  operator_assign s t m = (c ← Status_copy t; Status_destroy s;; mret c) m.
Proof.
  intros Hne Et. unfold operator_assign, Status_copy.
  rewrite (bool_decide_eq_true_2 _ Hne), Et, !bind_run.
  destruct (State_copy l m) as [[st m0]|]; reflexivity.
Qed.

(** Assignment: [s'] is the new value of the left-hand side. *)
Lemma operator_assign_spec m s t :
  wf m → live m s → live m t →
  ∃ s' m', operator_assign s t m = Some (s', m') ∧
    wf m' ∧ live m' s' ∧ env m' = env m ∧ ok s' = ok t ∧
    result (observe s') m' = result (observe t) m ∧
    preserved m m' t ∧
    (s ≠ t ∨ ok t = true → separate m' s' t) ∧
    (∀ u, live m u → (∀ l, state_ u = Some l → state_ s ≠ Some l) →
          preserved m m' u).
Proof.
  intros Hwf Hs Ht. destruct (decide (state_ s = state_ t)) as [E|Hne].
  - (* same pointer: nothing happens *)
    exists s, m. unfold operator_assign.
    rewrite bool_decide_eq_false_2 by (by intros H; apply H).
    apply Status_eq in E as ->.
    split; [reflexivity|]. do 5 (split; [done|]). split; [by apply preserved_refl|].
    split; [|intros; by apply preserved_refl].
    intros [?|Hok]; [done|]. apply ok_true_iff in Hok. split.
    + intros l. congruence.
    + intros p. unfold result, context. by rewrite (ok_None t Hok).
  - destruct (state_ t) as [lt|] eqn:Et.
    + (* copy of t, then release of the old state of s *)
      rewrite (operator_assign_copy m s t lt) by congruence.
      destruct (Status_copy_spec m t Hwf Ht)
        as (c & m1 & Hrun & Hwf1 & Hc1 & Henv1 & Hok1 & Hsub & Hsuba & Hfr & Hfra & Hobs).
      assert (Hgrow : ∀ u, live m u → preserved m m1 u)
        by (intros; by apply preserved_grow).
      destruct (Status_destroy_spec m1 s Hwf1 (proj1 (Hgrow s Hs)))
        as (m2 & Hdel & Hwf2 & Henv2 & Hgone & Hframe).
      exists c, m2. rewrite bind_run, Hrun, bind_run, Hdel.
      assert (Hcs : ∀ l, state_ c = Some l → state_ s ≠ Some l).
      { intros l Ec Es. destruct (Hs l Es) as [st El]. rewrite (Hfr l Ec) in El. done. }
      assert (Hts : ∀ l, state_ t = Some l → state_ s ≠ Some l) by congruence.
      pose proof (Hframe c Hc1 Hcs) as (Hc2 & Hobs2 & Hctx2).
      pose proof (preserved_trans _ _ _ _ (Hgrow t Ht)
                    (Hframe t (proj1 (Hgrow t Ht)) Hts)) as Hpt.
      split; [reflexivity|]. split; [done|]. split; [done|].
      split; [congruence|]. split; [done|]. split; [congruence|].
      split; [done|]. split.
      * intros _. split.
        -- intros l Ec Et'. destruct (Ht l Et') as [st El].
           rewrite (Hfr l Ec) in El. done.
        -- intros p Hp Hp'. rewrite Hctx2 in Hp. apply Hfra in Hp.
           destruct Hpt as (_ & _ & Hctxt). rewrite Hctxt in Hp'.
           apply (context_Some_allocated m t p Hwf) in Hp' as [x Hx]. congruence.
      * intros u Hu Hus.
        exact (preserved_trans _ _ _ _ (Hgrow u Hu)
                 (Hframe u (proj1 (Hgrow u Hu)) Hus)).
    + (* t is a success: s lets go of its state *)
      destruct (Status_destroy_spec m s Hwf Hs)
        as (m2 & Hdel & Hwf2 & Henv2 & Hgone & Hframe).
      exists (mkStatus None), m2. unfold operator_assign.
      rewrite Et, (bool_decide_eq_true_2 _ Hne), bind_run, Hdel.
      assert (Hts : ∀ l, state_ t = Some l → state_ s ≠ Some l) by congruence.
      split; [reflexivity|]. split; [done|]. split; [by intros ? [=]|].
      split; [done|]. split; [by rewrite (ok_None t Et)|].
      split; [unfold result; by rewrite observe_success, (observe_success m t Et)|].
      split; [by apply Hframe|]. split; [|done].
      intros _. split; [by intros ? [=]|]. by intros p [=].
Qed.

End ownership.

Section equality_and_copies.
Context {Code : Type} `{!CodeRegistry Code} {U : Type}.
Variable render : Code → string → string.
Implicit Types (m : Mem Code U) (s t : Status) (l a : loc).

(** ** Running [ToString] and [operator==] *)

Lemma ToString_run m s c x p :
  result (observe s) m = Some (c, x, p) →
  ToString render s m = Some (render c x, m).
Proof.
  intros [Hc Hm]%observe_code_msg. unfold ToString.
  by rewrite bind_run, Hc, bind_run, Hm.
Qed.

Lemma ToString_stored m s l (st : State Code) :
  state_ s = Some l → states m !! l = Some st →
  ToString render s m = Some (render (State_code st) (State_msg st), m).
Proof.
  intros Es El. unfold ToString.
  by rewrite bind_run, (code_stored m s l st Es El), bind_run,
    (msg_stored m s l st Es El).
Qed.

Lemma operator_eq_run m s t cs xs ps ct xt pt :
  result (observe s) m = Some (cs, xs, ps) →
  result (observe t) m = Some (ct, xt, pt) →
  operator_eq render s t m =
    Some (bool_decide (state_ s = state_ t)
          || bool_decide (render cs xs = render ct xt), m).
Proof.
  intros Hs Ht. unfold operator_eq. case_bool_decide; [reflexivity|].
  by rewrite bind_run, (ToString_run _ _ _ _ _ Hs), bind_run, (ToString_run _ _ _ _ _ Ht).
Qed.

(** Two statuses that read the same compare equal. *)
Lemma operator_eq_same m s t v :
  result (observe s) m = Some v → result (observe t) m = Some v →
  operator_eq render s t m = Some (true, m).
Proof.
  destruct v as [[c x] p]. intros Hs Ht.
  rewrite (operator_eq_run _ _ _ _ _ _ _ _ _ Hs Ht).
  by rewrite (bool_decide_eq_true_2 (render c x = render c x)), orb_true_r.
Qed.

(** ** Equality *)

(** X15: for live statuses [s] and [t] of a well-formed memory, [s == t]
    and [s != t] return without changing the memory, [s != t] is the
    negation of [s == t], and [s == t] is true when both are successes
    and when [s] and [t] read the same code, message and context
    payload. *)
Theorem operator_eq_of_equal_reading m s t :
  wf m → live m s → live m t →
  ∃ r, operator_eq render s t m = Some (r, m) ∧
       operator_ne render s t m = Some (negb r, m) ∧
       (ok s = true → ok t = true → r = true) ∧
       (result (observe s) m = result (observe t) m → r = true).
Proof.
  intros Hwf Hs Ht.
  destruct (observe_is_Some m s Hwf Hs) as [[[cs xs] ps] Es].
  destruct (observe_is_Some m t Hwf Ht) as [[[ct xt] pt] Et].
  pose proof (operator_eq_run m s t _ _ _ _ _ _ Es Et) as Hrun.
  eexists. split; [exact Hrun|].
  split; [unfold operator_ne; by rewrite bind_run, Hrun|].
  split.
  - intros Hoks%ok_true_iff Hokt%ok_true_iff.
    rewrite bool_decide_eq_true_2 by congruence. done.
  - rewrite Es, Et. intros [= -> -> ->].
    by rewrite (bool_decide_eq_true_2 (render ct xt = render ct xt)), orb_true_r.
Qed.

(** ** Copies *)

(** C5: the copy of a live status [s] of a well-formed memory is built,
    reads like [s] (code, message and context payload), compares equal
    to [s], and shares neither its [State] nor its context with [s];
    after [s] is destroyed, and after [s] is assigned any live status
    [t], the copy still reads the same and is still live. *)
Theorem Status_copy_independent m s :
  wf m → live m s →
  ∃ c m1 v, Status_copy s m = Some (c, m1) ∧
    result (observe s) m = Some v ∧
    result (observe s) m1 = Some v ∧
    result (observe c) m1 = Some v ∧
    operator_eq render c s m1 = Some (true, m1) ∧
    separate m1 c s ∧
    (∃ m2, Status_destroy s m1 = Some ((), m2) ∧
           live m2 c ∧ result (observe c) m2 = Some v) ∧
    (∀ t, live m1 t →
          ∃ s' m3, operator_assign s t m1 = Some (s', m3) ∧
                   live m3 c ∧ result (observe c) m3 = Some v).
Proof.
  intros Hwf Hs.
  destruct (observe_is_Some m s Hwf Hs) as [v Ev].
  destruct (Status_copy_spec m s Hwf Hs)
    as (c & m1 & Hrun & Hwf1 & Hc1 & Henv1 & Hok1 & Hsub & Hsuba & Hfr & Hfra & Hobs).
  destruct (preserved_grow m m1 s Hsub Hsuba Hwf Hs) as (Hs1 & Hobs1 & Hctx1).
  assert (Hcs : ∀ l, state_ c = Some l → state_ s ≠ Some l).
  { intros l Ec Es. destruct (Hs l Es) as [st El]. rewrite (Hfr l Ec) in El. done. }
  exists c, m1, v. split; [done|]. split; [done|]. split; [congruence|].
  split; [congruence|].
  split; [apply (operator_eq_same m1 c s v); congruence|].
  split; [|split].
  - split; [done|]. intros p Hp Hp'. apply Hfra in Hp. rewrite Hctx1 in Hp'.
    apply (context_Some_allocated m s p Hwf) in Hp' as [x Hx]. congruence.
  - destruct (Status_destroy_spec m1 s Hwf1 Hs1) as (m2 & Hdel & _ & _ & _ & Hframe).
    exists m2. split; [done|].
    destruct (Hframe c Hc1 Hcs) as (? & E & _). split; [done|]. congruence.
  - intros t Ht.
    destruct (operator_assign_spec m1 s t Hwf1 Hs1 Ht)
      as (s' & m3 & Hasg & _ & _ & _ & _ & _ & _ & _ & Hframe).
    exists s', m3. split; [done|].
    destruct (Hframe c Hc1 Hcs) as (? & E & _). split; [done|]. congruence.
Qed.

(** ** Assignment *)

(** C10: for live statuses [s] and [t] of a well-formed memory, [s = t]
    runs; the new value of [s] compares equal to [t] and reads like it,
    [t] reads as before, the memory stays well-formed with both values
    live; when [s] and [t] are different values the new [s] shares
    neither a [State] nor a context with [t]; and [s = s] changes
    neither [s] nor the memory. *)
Theorem operator_assign_clones m s t :
  wf m → live m s → live m t →
  ∃ s' m' v, operator_assign s t m = Some (s', m') ∧
    result (observe t) m = Some v ∧
    result (observe t) m' = Some v ∧
    result (observe s') m' = Some v ∧
    operator_eq render s' t m' = Some (true, m') ∧
    wf m' ∧ live m' s' ∧ live m' t ∧
    (s ≠ t → separate m' s' t) ∧
    operator_assign s s m = Some (s, m).
Proof.
  intros Hwf Hs Ht.
  destruct (observe_is_Some m t Hwf Ht) as [v Ev].
  destruct (operator_assign_spec m s t Hwf Hs Ht)
    as (s' & m' & Hrun & Hwf' & Hs' & _ & _ & Hobs & (Ht' & Hobst & _) & Hsep & _).
  exists s', m', v. split; [done|]. split; [done|]. split; [congruence|].
  split; [congruence|].
  split; [apply (operator_eq_same m' s' t v); congruence|].
  do 3 (split; [done|]). split; [auto|].
  unfold operator_assign. by rewrite bool_decide_eq_false_2 by (by intros H; apply H).
Qed.

(** ** The identity adapter *)

(** C7: adapting a live [Status] of a well-formed memory returns a status
    that reads exactly like the argument and compares equal to it, and
    the argument reads after the call as it did before. *)
Theorem StatusAdapter_Status_identity m s :
  wf m → live m s →
  ∃ r m' v, adapt s m = Some (r, m') ∧
    result (observe s) m = Some v ∧
    result (observe r) m' = Some v ∧
    result (observe s) m' = Some v ∧
    ok r = ok s ∧
    operator_eq render r s m' = Some (true, m') ∧
    operator_eq render s r m' = Some (true, m').
Proof.
  intros Hwf Hs.
  destruct (observe_is_Some m s Hwf Hs) as [v Ev].
  destruct (Status_copy_spec m s Hwf Hs)
    as (c & m1 & Hrun & Hwf1 & Hc1 & Henv1 & Hok1 & Hsub & Hsuba & Hfr & Hfra & Hobs).
  destruct (preserved_grow m m1 s Hsub Hsuba Hwf Hs) as (Hs1 & Hobs1 & Hctx1).
  exists c, m1, v. split; [exact Hrun|]. split; [done|].
  split; [congruence|]. split; [congruence|]. split; [done|].
  split; apply (operator_eq_same m1 _ _ v); congruence.
Qed.

End equality_and_copies.

Section propagation.
Context {Code : Type} `{!CodeRegistry Code} {U : Type}.
Implicit Types (m : Mem Code U) (s t : Status) (l a : loc).

(** ** Constructors keep the ownership discipline *)

Lemma Status_code_msg_wf (c : Code) (x : string) m s m' :
  wf m → Status_code_msg c x m = Some (s, m') → wf m' ∧ live m' s.
Proof.
  intros Hwf. rewrite Status_code_msg_run. intros [= <- <-]. split.
  - apply wf_alloc; [done|apply fresh_state_None|done].
  - intros l [= <-]. simpl. rewrite lookup_insert_eq. eauto.
Qed.

Lemma Status_from_pb_OK (pb : StatusPb Code) m :
  pb_code pb = OK → Status_from_pb pb m = Some (Status_OK, m).
Proof. intros E. unfold Status_from_pb. by rewrite bool_decide_eq_true_2. Qed.

Lemma Status_from_pb_run (pb : StatusPb Code) m :
  pb_code pb ≠ OK →
  let l := fresh (dom (states m)) in
  let c := fresh (dom (anys m)) in
  Status_from_pb pb m =
    Some ({| state_ := Some l |},
          match pb_context pb with
          | None =>
              {| states := <[l := mkState (pb_code pb) (pb_msg pb) None]> (states m);
                 anys := anys m; env := env m |}
          | Some x =>
              {| states := <[l := mkState (pb_code pb) (pb_msg pb) (Some c)]> (states m);
                 anys := <[c := x]> (anys m); env := env m |}
          end).
Proof.
  intros E. unfold Status_from_pb.
  rewrite bool_decide_eq_false_2, bind_run by done. by destruct (pb_context pb).
Qed.

Lemma Status_from_pb_wf (pb : StatusPb Code) m s m' :
  wf m → Status_from_pb pb m = Some (s, m') → wf m' ∧ live m' s.
Proof.
  intros Hwf. destruct (decide (pb_code pb = OK)) as [E|E].
  - rewrite (Status_from_pb_OK pb m E). intros [= <- <-]. split; [done|]. by intros l [=].
  - rewrite (Status_from_pb_run pb m E). intros [= <- <-]. split.
    + destruct (pb_context pb).
      * apply wf_alloc_ctx; [done|apply fresh_state_None|apply fresh_any_None|done].
      * apply wf_alloc; [done|apply fresh_state_None|done].
    + intros l [= <-]. destruct (pb_context pb); simpl; rewrite lookup_insert_eq; eauto.
Qed.

(** ** The adapter from the wire form *)

(** C8, as amended: adapting a wire value with code [X] and message [Y]
    builds, in any memory, a status whose [code()] is [X] and which is
    [ok()] exactly when [X] is [OK].  When [X] is [OK] it is the success
    status: nothing is allocated and [msg()] is the empty string,
    whatever [Y] is.  When [X] is not [OK], [msg()] is [Y], the context
    payload is the context entry of the wire value, and, when there is
    no such entry, the status compares equal to a [Status(X, Y)] built
    afterwards. *)
Theorem StatusAdapter_StatusPb_decodes (render : Code → string → string)
    (pb : StatusPb Code) m :
  ∃ s m', adapt pb m = Some (s, m') ∧
    code s m' = Some (pb_code pb, m') ∧
    (ok s = true ↔ pb_code pb = OK) ∧
    (pb_code pb = OK →
       m' = m ∧ msg s m' = Some ("", m') ∧ has_context s m' = Some (false, m')) ∧
    (pb_code pb ≠ OK →
       msg s m' = Some (pb_msg pb, m') ∧
       result (observe s) m' = Some (pb_code pb, pb_msg pb, pb_context pb) ∧
       (pb_context pb = None →
          ∃ s' m'', Status_code_msg (pb_code pb) (pb_msg pb) m' = Some (s', m'') ∧
                    operator_eq render s s' m'' = Some (true, m''))).
Proof.
  unfold adapt, StatusAdapter_StatusPb.
  destruct (decide (pb_code pb = OK)) as [E|E].
  { exists Status_OK, m. rewrite (Status_from_pb_OK pb m E), E.
    split; [done|]. split; [done|]. split; [done|]. split; [done|]. done. }
  rewrite (Status_from_pb_run pb m E).
  set (l := fresh (dom (states m))). set (c := fresh (dom (anys m))).
  set (m' := match pb_context pb with None => _ | Some x => _ end).
  set (s := mkStatus (Some l)).
  assert (∃ st, states m' !! l = Some st ∧ State_code st = pb_code pb ∧
                State_msg st = pb_msg pb ∧
                (pb_context pb = None → State_context st = None) ∧
                observe s m' = Some ((pb_code pb, pb_msg pb, pb_context pb), m'))
    as (st & El & Ec & Ex & Ea & Hobs).
  { unfold m'. destruct (pb_context pb) as [x|]; eexists;
      (split; [apply lookup_insert_eq|]); (do 3 (split; [done|])).
    - rewrite (observe_stored _ s l _ eq_refl (lookup_insert_eq _ _ _)). simpl.
      by rewrite lookup_insert_eq.
    - by rewrite (observe_stored _ s l _ eq_refl (lookup_insert_eq _ _ _)). }
  exists s, m'. split; [reflexivity|].
  split; [by rewrite (code_stored m' s l st eq_refl El), Ec|].
  split; [split; [discriminate|done]|]. split; [done|]. intros _.
  split; [by rewrite (msg_stored m' s l st eq_refl El), Ex|].
  split; [unfold result; by rewrite Hobs|].
  intros Hnone. eexists _, _. split; [apply Status_code_msg_run|].
  set (l' := fresh (dom (states m'))). set (m'' := {| states := _ |}).
  assert (Hne : l ≠ l').
  { intros E'. pose proof (fresh_state_None m') as F. fold l' in F. congruence. }
  assert (El' : states m'' !! l' = Some (mkState (pb_code pb) (pb_msg pb) None))
    by apply lookup_insert_eq.
  assert (El2 : states m'' !! l = Some st)
    by (unfold m''; simpl; by rewrite lookup_insert_ne).
  unfold operator_eq. rewrite bool_decide_eq_false_2 by (simpl; congruence).
  rewrite bind_run, (ToString_stored render m'' s l st eq_refl El2).
  rewrite bind_run, (ToString_stored render m'' (mkStatus (Some l')) l' _ eq_refl El').
  simpl. rewrite Ec, Ex. by rewrite bool_decide_eq_true_2.
Qed.

(** ** The propagation idiom *)

(** C6: let the argument of [PL_RETURN_IF_ERROR], run once in [m], return
    the live status [x] and leave the well-formed memory [m1].  If [x] is
    [ok()], the enclosing function goes on with the rest of its body in
    [m1].  Otherwise it returns, whatever the rest of its body is, a
    status that is not [ok()] and has the code and the message of [x],
    and the program state outside the heap is the one that single run
    left. *)
Theorem PL_RETURN_IF_ERROR_propagates (expr rest : M Status) m x m1 :
  expr m = Some (x, m1) → wf m1 → live m1 x →
  (ok x = true → PL_RETURN_IF_ERROR expr rest m = rest m1) ∧
  (ok x = false →
     ∃ r m2 c txt,
       PL_RETURN_IF_ERROR expr rest m = Some (r, m2) ∧
       (∀ rest', PL_RETURN_IF_ERROR expr rest' m = Some (r, m2)) ∧
       result (code x) m1 = Some c ∧ result (msg x) m1 = Some txt ∧
       ok r = false ∧ code r m2 = Some (c, m2) ∧ msg r m2 = Some (txt, m2) ∧
       env m2 = env m1).
Proof.
  intros Hexpr Hwf Hx. split.
  - intros Hok. unfold PL_RETURN_IF_ERROR. rewrite bind_run, Hexpr. simpl. rewrite Hok. simpl.
    apply ok_true_iff in Hok. unfold Status_destroy.
    rewrite bind_run, Hok. reflexivity.
  - intros Hok.
    destruct (observe_is_Some m1 x Hwf Hx) as [[[c txt] p] Ev].
    destruct (Status_copy_spec m1 x Hwf Hx)
      as (r & m1' & Hrun & Hwf1 & Hr1 & Henv1 & Hok1 & Hsub & Hsuba & Hfr & _ & Hobs).
    destruct (preserved_grow m1 m1' x Hsub Hsuba Hwf Hx) as (Hx1 & _ & _).
    destruct (Status_destroy_spec m1' x Hwf1 Hx1) as (m2 & Hdel & _ & Henv2 & _ & Hframe).
    assert (Hrx : ∀ l, state_ r = Some l → state_ x ≠ Some l).
    { intros l Er Ex. destruct (Hx l Ex) as [st El]. rewrite (Hfr l Er) in El. done. }
    destruct (Hframe r Hr1 Hrx) as (_ & Hobs2 & _).
    assert (Hrun' : ∀ rest' : M Status,
              PL_RETURN_IF_ERROR expr rest' m = Some (r, m2)).
    { intros rest'. unfold PL_RETURN_IF_ERROR.
      rewrite bind_run, Hexpr. simpl. rewrite Hok. simpl.
      unfold adapt, StatusAdapter_Status. by rewrite bind_run, Hrun, bind_run, Hdel. }
    destruct (observe_code_msg m1 x c txt p Ev) as [Hc Ht].
    destruct (observe_code_msg m2 r c txt p) as [Hc2 Ht2]; [congruence|].
    exists r, m2, c, txt. split; [apply Hrun'|]. split; [apply Hrun'|].
    unfold result. rewrite Hc, Ht. do 2 (split; [done|]).
    split; [congruence|]. do 2 (split; [done|]). congruence.
Qed.

End propagation.

(** ** Closed instances *)

Lemma wf_mem2 : wf mem2.
Proof.
  split; unfold mem2; simpl.
  - intros l st a [[<- <-]|[_ [[<- <-]|[_ E]]%lookup_insert_Some]]%lookup_insert_Some;
      simpl; [intros [= <-]; by eexists|done|done].
  - intros l1 l2 st1 st2 a
      [[<- <-]|[_ [[<- <-]|[_ E1]]%lookup_insert_Some]]%lookup_insert_Some
      [[<- <-]|[_ [[<- <-]|[_ E2]]%lookup_insert_Some]]%lookup_insert_Some;
      simpl; done.
Qed.

Lemma live_mem2_s1 : live mem2 s1.
Proof. intros l [= <-]. by eexists. Qed.

Lemma live_mem2_s2 : live mem2 s2.
Proof. intros l [= <-]. by eexists. Qed.

Lemma coded_mem2_s2 : coded mem2 s2.
Proof. intros l st [= <-]. vm_compute. by intros [= <-]. Qed.

(** C1, witness: the status [Status(NOT_FOUND, "missing key")]. *)
Lemma ok_iff_code_OK_witness :
  live mem2 s2 ∧ coded mem2 s2 ∧
  (ok s2 = true ↔ state_ s2 = None) ∧
  (ok s2 = true → code s2 mem2 = Some (OK, mem2)) ∧
  (ok s2 = true ↔ result (code s2) mem2 = Some OK).
Proof.
  split; [exact live_mem2_s2|]. split; [exact coded_mem2_s2|].
  exact (ok_iff_code_OK mem2 s2 live_mem2_s2 coded_mem2_s2).
Defined.

(** C1, as stated, fails: [Status(OK, "boom")] built in the empty memory
    is not [ok()], its [state_] is not null, and its [code()] is [OK]. *)
Lemma Status_OK_code_not_ok :
  ∃ s m, Status_code_msg OK3 "boom" mem0 = Some (s, m) ∧
    ok s = false ∧ state_ s ≠ None ∧ result (code s) m = Some OK.
Proof. eexists _, _. split; [reflexivity|]. by vm_compute. Qed.

(** C8, as stated, fails: the wire value with code [OK] and message
    "hello" is adapted to a status whose [code()] is [OK] and whose
    [msg()] is the empty string, not "hello". *)
Lemma StatusPb_OK_drops_message :
  ∃ s m, adapt (mkStatusPb OK3 "hello" None) mem0 = Some (s, m) ∧
    result (code s) m = Some OK3 ∧
    result (msg s) m = Some "" ∧
    result (msg s) m ≠ Some "hello".
Proof. exists Status_OK, mem0. by repeat split. Qed.

(** C5, witness: copying [s1], which carries a context. *)
Lemma Status_copy_independent_witness :
  wf mem2 ∧ live mem2 s1 ∧
  ∃ c m1 v, Status_copy s1 mem2 = Some (c, m1) ∧
    result (observe s1) mem2 = Some v ∧
    result (observe s1) m1 = Some v ∧
    result (observe c) m1 = Some v ∧
    operator_eq render3 c s1 m1 = Some (true, m1) ∧
    separate m1 c s1 ∧
    (∃ m2, Status_destroy s1 m1 = Some ((), m2) ∧
           live m2 c ∧ result (observe c) m2 = Some v) ∧
    (∀ t, live m1 t →
          ∃ s' m3, operator_assign s1 t m1 = Some (s', m3) ∧
                   live m3 c ∧ result (observe c) m3 = Some v).
Proof.
  split; [exact wf_mem2|]. split; [exact live_mem2_s1|].
  exact (Status_copy_independent render3 mem2 s1 wf_mem2 live_mem2_s1).
Defined.

(** C10, witness: assigning [s1], which carries a context, to [s2]. *)
Lemma operator_assign_clones_witness :
  wf mem2 ∧ live mem2 s2 ∧ live mem2 s1 ∧
  ∃ s' m' v, operator_assign s2 s1 mem2 = Some (s', m') ∧
    result (observe s1) mem2 = Some v ∧
    result (observe s1) m' = Some v ∧
    result (observe s') m' = Some v ∧
    operator_eq render3 s' s1 m' = Some (true, m') ∧
    wf m' ∧ live m' s' ∧ live m' s1 ∧
    (s2 ≠ s1 → separate m' s' s1) ∧
    operator_assign s2 s2 mem2 = Some (s2, mem2).
Proof.
  split; [exact wf_mem2|]. split; [exact live_mem2_s2|]. split; [exact live_mem2_s1|].
  exact (operator_assign_clones render3 mem2 s2 s1 wf_mem2 live_mem2_s2 live_mem2_s1).
Defined.

(** C7, witness: adapting [s1]. *)
Lemma StatusAdapter_Status_identity_witness :
  wf mem2 ∧ live mem2 s1 ∧
  ∃ r m' v, adapt s1 mem2 = Some (r, m') ∧
    result (observe s1) mem2 = Some v ∧
    result (observe r) m' = Some v ∧
    result (observe s1) m' = Some v ∧
    ok r = ok s1 ∧
    operator_eq render3 r s1 m' = Some (true, m') ∧
    operator_eq render3 s1 r m' = Some (true, m').
Proof.
  split; [exact wf_mem2|]. split; [exact live_mem2_s1|].
  exact (StatusAdapter_Status_identity render3 mem2 s1 wf_mem2 live_mem2_s1).
Defined.

Lemma wf_mem1 : wf mem1.
Proof.
  split; unfold mem1; simpl.
  - by intros l st a [[<- <-]|[_ E]]%lookup_insert_Some.
  - by intros l1 l2 st1 st2 a [[<- <-]|[_ E1]]%lookup_insert_Some
      [[<- <-]|[_ E2]]%lookup_insert_Some.
Qed.

Lemma live_mem1_s1 : live mem1 s1.
Proof. intros l [= <-]. by eexists. Qed.

Lemma sub_call_mem0 : sub_call NOT_FOUND "missing key" mem0 = Some (s1, mem1).
Proof. reflexivity. Qed.

(** C6, witness: the sub-call returns [Status(NOT_FOUND, "missing key")]
    and counts itself; the rest of the function would count once more. *)
Lemma PL_RETURN_IF_ERROR_propagates_witness :
  sub_call NOT_FOUND "missing key" mem0 = Some (s1, mem1) ∧ wf mem1 ∧ live mem1 s1 ∧
  (ok s1 = true →
     PL_RETURN_IF_ERROR (sub_call NOT_FOUND "missing key") sub_call_ok mem0
       = sub_call_ok mem1) ∧
  (ok s1 = false →
     ∃ r m2 c txt,
       PL_RETURN_IF_ERROR (sub_call NOT_FOUND "missing key") sub_call_ok mem0
         = Some (r, m2) ∧
       (∀ rest', PL_RETURN_IF_ERROR (sub_call NOT_FOUND "missing key") rest' mem0
                   = Some (r, m2)) ∧
       result (code s1) mem1 = Some c ∧ result (msg s1) mem1 = Some txt ∧
       ok r = false ∧ code r m2 = Some (c, m2) ∧ msg r m2 = Some (txt, m2) ∧
       env m2 = env mem1).
Proof.
  split; [exact sub_call_mem0|]. split; [exact wf_mem1|]. split; [exact live_mem1_s1|].
  exact (PL_RETURN_IF_ERROR_propagates (sub_call NOT_FOUND "missing key") sub_call_ok
           mem0 s1 mem1 sub_call_mem0 wf_mem1 live_mem1_s1).
Defined.

(** The scenario of the spec, run: the failing sub-call is counted once,
    the function returns [NOT_FOUND] with "missing key", and the rest of
    the body (which would count once more) does not run. *)
Example propagation_failure_runs_once :
  (λ '(r, m), (result (observe r) m, env m))
    <$> PL_RETURN_IF_ERROR (sub_call NOT_FOUND "missing key") sub_call_ok mem0
  = Some (Some (NOT_FOUND, "missing key", None), 1).
Proof. reflexivity. Qed.

(** With a successful sub-call the rest of the body runs: one count for
    the argument, one for the rest. *)
Example propagation_success_continues :
  (λ '(r, m), (ok r, env m))
    <$> PL_RETURN_IF_ERROR sub_call_ok sub_call_ok mem0
  = Some (true, 2).
Proof. reflexivity. Qed.

(** A copy outlives its original: [observe] on the copy after the
    original was destroyed, and on the destroyed original. *)
Example copy_survives_destroy :
  result (c ← Status_copy s1; Status_destroy s1;; observe c) mem2
    = Some (NOT_FOUND, "missing key", Some any1) ∧
  result (c ← Status_copy s1; Status_destroy s1;; observe s1) mem2 = None.
Proof. split; reflexivity. Qed.

(** * The rest of the header, and what the operations do to the heap *)

Section heap_accounting.
Context {Code : Type} `{!CodeRegistry Code} {U : Type}.
Implicit Types (m : Mem Code U) (s t u : Status) (st : State Code) (l a : loc).

(** ** Running the copy constructor and [owned] *)

Lemma Mem_eta m : {| states := states m; anys := anys m; env := env m |} = m.
Proof. by destruct m. Qed.

Lemma Status_copy_run_plain m s l st :
  state_ s = Some l → states m !! l = Some st → State_context st = None →
  Status_copy s m =
    Some (mkStatus (Some (fresh (dom (states m)))),
          {| states := <[fresh (dom (states m)) := st]> (states m);
             anys := anys m; env := env m |}).
Proof.
  intros Es El Ea. unfold Status_copy.
  by rewrite Es, bind_run, (State_copy_plain m l st El Ea).
Qed.

Lemma Status_copy_run_ctx m s l st a x :
  state_ s = Some l → states m !! l = Some st →
  State_context st = Some a → anys m !! a = Some x →
  Status_copy s m =
    Some (mkStatus (Some (fresh (dom (states m)))),
          {| states := <[fresh (dom (states m)) :=
                           mkState (State_code st) (State_msg st)
                                   (Some (fresh (dom (anys m))))]> (states m);
             anys := <[fresh (dom (anys m)) := x]> (anys m); env := env m |}).
Proof.
  intros Es El Ea Ex. unfold Status_copy.
  by rewrite Es, bind_run, (State_copy_ctx m l st a x El Ea Ex).
Qed.

Lemma owned_success m s : state_ s = None → owned s m = Some ((0, 0), m).
Proof.
  intros E. unfold owned, has_context. by rewrite bind_run, (ok_None s E).
Qed.

Lemma owned_stored m s l st :
  state_ s = Some l → states m !! l = Some st →
  owned s m = Some ((1, match State_context st with Some _ => 1 | None => 0 end), m).
Proof.
  intros Es El. unfold owned.
  rewrite bind_run, (has_context_stored m s l st Es El), (ok_Some s l Es).
  by destruct (State_context st).
Qed.

(** The copy constructor allocates what the copy owns, which is what the
    original owns, and destroying the copy gives back the memory the
    copy was made in. *)
Lemma Status_copy_cells m s :
  wf m → live m s →
  ∃ c m1 n, Status_copy s m = Some (c, m1) ∧
    result (owned s) m = Some n ∧
    result (owned c) m1 = Some n ∧
    allocated m1 = (fst (allocated m) + fst n, snd (allocated m) + snd n) ∧
    Status_destroy c m1 = Some ((), m).
Proof.
  intros [Hctx _] Hl. unfold allocated, result. destruct (state_ s) as [l|] eqn:Es.
  - destruct (Hl l Es) as [st El].
    pose proof (fresh_state_None m) as Hf. pose proof (fresh_any_None m) as Hc.
    rewrite (owned_stored m s l st Es El).
    destruct (State_context st) as [a|] eqn:Ea.
    + destruct (Hctx l st a El Ea) as [x Ex].
      rewrite (Status_copy_run_ctx m s l st a x Es El Ea Ex).
      set (l' := fresh (dom (states m))) in *. set (c := fresh (dom (anys m))) in *.
      set (st' := mkState _ _ _). set (m1 := {| states := _ |}).
      assert (El' : states m1 !! l' = Some st') by apply lookup_insert_eq.
      exists (mkStatus (Some l')), m1, (1, 1). split; [done|]. split; [done|].
      split; [by rewrite (owned_stored m1 (mkStatus (Some l')) l' st' eq_refl El')|].
      split.
      * simpl. rewrite !map_size_insert_None by done. f_equal; lia.
      * unfold Status_destroy. simpl.
        rewrite (State_delete_run m1 l' st' El').
        -- simpl. rewrite !delete_insert_id by done. by rewrite Mem_eta.
        -- intros ? [= <-]. simpl. rewrite lookup_insert_eq. eauto.
    + rewrite (Status_copy_run_plain m s l st Es El Ea).
      set (l' := fresh (dom (states m))) in *. set (m1 := {| states := _ |}).
      assert (El' : states m1 !! l' = Some st) by apply lookup_insert_eq.
      exists (mkStatus (Some l')), m1, (1, 0). split; [done|]. split; [done|].
      split; [by rewrite (owned_stored m1 (mkStatus (Some l')) l' st eq_refl El'), Ea|].
      split.
      * simpl. rewrite map_size_insert_None by done. f_equal; lia.
      * unfold Status_destroy. simpl.
        rewrite (State_delete_run m1 l' st El').
        -- rewrite Ea. simpl. rewrite delete_insert_id by done. by rewrite Mem_eta.
        -- intros ?. by rewrite Ea.
  - exists (mkStatus None), m, (0, 0). unfold Status_copy. rewrite Es.
    split; [done|]. rewrite (owned_success m s Es). split; [done|].
    split; [done|]. split; [simpl; f_equal; lia|done].
Qed.

Lemma owned_agree m m' s :
  (∀ l, state_ s = Some l → states m' !! l = states m !! l) →
  result (owned s) m' = result (owned s) m.
Proof.
  intros Hs. unfold result. destruct (state_ s) as [l|] eqn:Es.
  - specialize (Hs l eq_refl). destruct (states m !! l) as [st|] eqn:El.
    + by rewrite (owned_stored m s l st Es El), (owned_stored m' s l st Es Hs).
    + unfold owned, has_context, arrow, load_state.
      by rewrite !bind_run, (ok_Some s l Es), Es, !bind_run, Hs, El.
  - by rewrite !owned_success.
Qed.

(** The destructor releases what the status owns; a failure cannot be
    read or destroyed again afterwards. *)
Lemma Status_destroy_cells m s :
  wf m → live m s →
  ∃ m2 n, Status_destroy s m = Some ((), m2) ∧
    result (owned s) m = Some n ∧
    allocated m = (fst (allocated m2) + fst n, snd (allocated m2) + snd n) ∧
    (ok s = false → observe s m2 = None ∧ Status_destroy s m2 = None).
Proof.
  intros [Hctx _] Hl. unfold allocated, result, Status_destroy.
  destruct (state_ s) as [l|] eqn:Es.
  - destruct (Hl l Es) as [st El].
    rewrite (State_delete_run m l st El (λ a, Hctx l st a El)).
    rewrite (owned_stored m s l st Es El).
    eexists _, _. split; [reflexivity|]. split; [reflexivity|]. simpl. split.
    + assert (size (states m) ≠ 0)
        by (apply map_size_ne_0_lookup_2 with l; eauto).
      rewrite map_size_delete_Some by eauto.
      destruct (State_context st) as [a|] eqn:Ea.
      * assert (size (anys m) ≠ 0)
          by (apply map_size_ne_0_lookup_2 with a; eauto).
        rewrite map_size_delete_Some by eauto. f_equal; lia.
      * f_equal; lia.
    + intros _. split.
      * apply (observe_dangling _ s l Es). simpl. apply lookup_delete_eq.
      * unfold State_delete, load_state. rewrite bind_run. simpl.
        by rewrite lookup_delete_eq.
  - exists m, (0, 0). split; [done|]. rewrite (owned_success m s Es).
    split; [done|]. split; [simpl; f_equal; lia|].
    by rewrite (ok_None s Es).
Qed.

(** Assignment allocates what the right-hand side owns and releases what
    the left-hand side owned. *)
Lemma operator_assign_cells m s t :
  wf m → live m s → live m t →
  ∃ s' m' ns nt, operator_assign s t m = Some (s', m') ∧
    result (owned s) m = Some ns ∧ result (owned t) m = Some nt ∧
    (fst (allocated m') + fst ns, snd (allocated m') + snd ns)
      = (fst (allocated m) + fst nt, snd (allocated m) + snd nt).
Proof.
  intros Hwf Hs Ht. destruct (decide (state_ s = state_ t)) as [E|Hne].
  - destruct (Status_destroy_cells m s Hwf Hs) as (_ & n & _ & Hn & _).
    apply Status_eq in E as <-.
    exists s, m, n, n. unfold operator_assign.
    by rewrite bool_decide_eq_false_2 by (by intros H; apply H).
  - destruct (state_ t) as [lt|] eqn:Et.
    + rewrite (operator_assign_copy m s t lt) by congruence.
      destruct (Status_copy_cells m t Hwf Ht) as (c & m1 & nt & Hrun & Hnt & _ & Hal & _).
      destruct (Status_copy_spec m t Hwf Ht)
        as (c' & m1' & Hrun' & Hwf1 & _ & _ & _ & Hsub & Hsuba & _).
      assert (c' = c ∧ m1' = m1) as [-> ->] by (split; congruence).
      destruct (preserved_grow m m1 s Hsub Hsuba Hwf Hs) as (Hs1 & _ & _).
      destruct (Status_destroy_cells m1 s Hwf1 Hs1) as (m2 & ns & Hdel & Hns & Hal2 & _).
      exists c, m2, ns, nt. rewrite bind_run, Hrun, bind_run, Hdel.
      split; [done|]. split.
      { rewrite <- Hns. symmetry. apply owned_agree.
        intros l [st El]%Hs. rewrite El. by eapply lookup_weaken. }
      split; [done|].
      rewrite Hal in Hal2. unfold allocated in *. simpl in *.
      injection Hal2 as H1 H2. f_equal; lia.
    + destruct (Status_destroy_cells m s Hwf Hs) as (m2 & ns & Hdel & Hns & Hal & _).
      exists (mkStatus None), m2, ns, (0, 0). unfold operator_assign.
      rewrite Et, (bool_decide_eq_true_2 _ Hne), bind_run, Hdel.
      split; [done|]. split; [done|].
      split; [unfold result; by rewrite (owned_success m t Et)|].
      unfold allocated in *. simpl in *. injection Hal as H1 H2. f_equal; lia.
Qed.

(** ** What copying, destroying and assigning do to the heap *)

(** X1: copying a live status allocates exactly what the original owns
    (one [State] for a failure, one [Any] more when it has a context);
    the copy owns as much; copying a success leaves the memory as it is;
    the state outside the heap is never touched. *)
Theorem Status_copy_allocation m s :
  wf m → live m s →
  ∃ c m1 n, Status_copy s m = Some (c, m1) ∧
    result (owned s) m = Some n ∧
    result (owned c) m1 = Some n ∧
    allocated m1 = (fst (allocated m) + fst n, snd (allocated m) + snd n) ∧
    (ok s = true → m1 = m) ∧
    env m1 = env m.
Proof.
  intros Hwf Hs.
  destruct (Status_copy_cells m s Hwf Hs) as (c & m1 & n & Hrun & Hn & Hn' & Hal & _).
  destruct (Status_copy_spec m s Hwf Hs) as (c' & m1' & Hrun' & _ & _ & Henv & _).
  assert (m1' = m1) as -> by congruence.
  exists c, m1, n. do 4 (split; [done|]). split; [|done].
  intros Hok%ok_true_iff. unfold Status_copy in Hrun. rewrite Hok in Hrun.
  by injection Hrun.
Qed.

(** X2: destroying the copy of a live status gives back exactly the
    memory in which the copy was made. *)
Theorem Status_copy_destroy_roundtrip m s :
  wf m → live m s →
  ∃ c m1, Status_copy s m = Some (c, m1) ∧ Status_destroy c m1 = Some ((), m).
Proof.
  intros Hwf Hs.
  destruct (Status_copy_cells m s Hwf Hs) as (c & m1 & n & Hrun & _ & _ & _ & Hback).
  by exists c, m1.
Qed.

(** X3: the destructor of a live status releases exactly what the status
    owns and keeps the ownership discipline; destroying a success does
    nothing; a destroyed failure can neither be read nor destroyed
    again. *)
Theorem Status_destroy_releases m s :
  wf m → live m s →
  ∃ m2 n, Status_destroy s m = Some ((), m2) ∧
    result (owned s) m = Some n ∧
    allocated m = (fst (allocated m2) + fst n, snd (allocated m2) + snd n) ∧
    wf m2 ∧ env m2 = env m ∧
    (ok s = true → m2 = m) ∧
    (ok s = false → observe s m2 = None ∧ Status_destroy s m2 = None).
Proof.
  intros Hwf Hs.
  destruct (Status_destroy_cells m s Hwf Hs) as (m2 & n & Hrun & Hn & Hal & Hgone).
  destruct (Status_destroy_spec m s Hwf Hs) as (m2' & Hrun' & Hwf2 & Henv & _).
  assert (m2' = m2) as -> by congruence.
  exists m2, n. do 5 (split; [done|]). split; [|done].
  intros Hok%ok_true_iff. unfold Status_destroy in Hrun. rewrite Hok in Hrun.
  by injection Hrun.
Qed.

(** X4: an assignment between live statuses allocates what the right-hand
    side owns and releases what the left-hand side owned, so nothing
    leaks; the ownership discipline and the state outside the heap are
    kept. *)
Theorem operator_assign_balance m s t :
  wf m → live m s → live m t →
  ∃ s' m' ns nt, operator_assign s t m = Some (s', m') ∧
    result (owned s) m = Some ns ∧ result (owned t) m = Some nt ∧
    (fst (allocated m') + fst ns, snd (allocated m') + snd ns)
      = (fst (allocated m) + fst nt, snd (allocated m) + snd nt) ∧
    wf m' ∧ env m' = env m.
Proof.
  intros Hwf Hs Ht.
  destruct (operator_assign_cells m s t Hwf Hs Ht)
    as (s' & m' & ns & nt & Hrun & Hns & Hnt & Hal).
  destruct (operator_assign_spec m s t Hwf Hs Ht)
    as (s'' & m'' & Hrun' & Hwf' & _ & Henv & _).
  assert (m'' = m') as -> by congruence.
  by exists s', m', ns, nt.
Qed.

(** X5: copying a live status changes nothing for any live status [u]:
    [u] stays live and reads the same after the copy. *)
Theorem Status_copy_frame m s u :
  wf m → live m s → live m u →
  ∃ c m1, Status_copy s m = Some (c, m1) ∧
    wf m1 ∧ live m1 c ∧ live m1 u ∧
    result (observe u) m1 = result (observe u) m.
Proof.
  intros Hwf Hs Hu.
  destruct (Status_copy_spec m s Hwf Hs)
    as (c & m1 & Hrun & Hwf1 & Hc & _ & _ & Hsub & Hsuba & _).
  destruct (preserved_grow m m1 u Hsub Hsuba Hwf Hu) as (Hu1 & Hobs & _).
  by exists c, m1.
Qed.

(** X6: destroying a live status changes nothing for a live status [u]
    that does not hold the same [State]: [u] stays live and reads the
    same. *)
Theorem Status_destroy_frame m s u :
  wf m → live m s → live m u →
  (∀ l, state_ u = Some l → state_ s ≠ Some l) →
  ∃ m2, Status_destroy s m = Some ((), m2) ∧
    live m2 u ∧ result (observe u) m2 = result (observe u) m.
Proof.
  intros Hwf Hs Hu Hne.
  destruct (Status_destroy_spec m s Hwf Hs) as (m2 & Hrun & _ & _ & _ & Hframe).
  destruct (Hframe u Hu Hne) as (Hu2 & Hobs & _).
  by exists m2.
Qed.

(** X7: assigning to a live status [s] changes nothing for a live status
    [u] that does not hold the [State] of [s]: [u] stays live and reads
    the same. *)
Theorem operator_assign_frame m s t u :
  wf m → live m s → live m t → live m u →
  (∀ l, state_ u = Some l → state_ s ≠ Some l) →
  ∃ s' m', operator_assign s t m = Some (s', m') ∧
    live m' u ∧ result (observe u) m' = result (observe u) m.
Proof.
  intros Hwf Hs Ht Hu Hne.
  destruct (operator_assign_spec m s t Hwf Hs Ht)
    as (s' & m' & Hrun & _ & _ & _ & _ & _ & _ & _ & Hframe).
  destruct (Hframe u Hu Hne) as (Hu' & Hobs & _).
  by exists s', m'.
Qed.

End heap_accounting.

Section readers_and_glue.
Context {Code : Type} `{!CodeRegistry Code} {U : Type}.
Variable render : Code → string → string.
Implicit Types (m : Mem Code U) (s t u : Status) (st : State Code) (l a : loc).

(** ** The const members only read *)

(** A computation that leaves the memory as it found it. *)
Local Abbreviation reads c := (∀ m, c m = (λ x, (x, m)) <$> result c m).

Lemma arrow_field_reads {A} (f : State Code → A) (p : option loc) :
  reads (st ← arrow p; mret (f st)).
Proof.
  intros m. unfold result. rewrite bind_run. destruct p as [l|]; [|done].
  simpl. unfold load_state. by destruct (states m !! l).
Qed.

Lemma ToString_reads s : reads (ToString render s).
Proof.
  intros m. unfold result, ToString. rewrite !bind_run.
  destruct (state_ s) as [l|] eqn:Es.
  - destruct (states m !! l) as [st|] eqn:El.
    + by rewrite (code_stored m s l st Es El), bind_run, (msg_stored m s l st Es El).
    + unfold code, arrow, load_state. by rewrite (ok_Some s l Es), Es, bind_run, El.
  - by rewrite (code_success m s Es), bind_run, (msg_success m s Es).
Qed.

Lemma ToString_cases m s :
  ToString render s m = None ∨ ∃ x, ToString render s m = Some (x, m).
Proof.
  rewrite (ToString_reads s m). unfold result.
  destruct (ToString render s m) as [[x m']|]; [right; by exists x|by left].
Qed.

Lemma operator_eq_reads s t : reads (operator_eq render s t).
Proof.
  intros m. unfold result, operator_eq. case_bool_decide; [done|].
  rewrite !bind_run.
  destruct (ToString_cases m s) as [->|[x ->]]; [done|]. rewrite !bind_run.
  by destruct (ToString_cases m t) as [->|[y ->]].
Qed.

(** X8: [code()], [msg()], [context()], [has_context()], [ToString()],
    [operator==] and [operator!=] never change the memory: when they
    return, the memory is the one they were called in. *)
Theorem const_members_read_only s t :
  reads (code s) ∧ reads (msg s) ∧ reads (context s) ∧ reads (has_context s) ∧
  reads (ToString render s) ∧
  reads (operator_eq render s t) ∧ reads (operator_ne render s t).
Proof.
  split; [|split; [|split; [|split; [|split; [|split]]]]].
  - intros m. unfold code. destruct (ok s); [done|]. apply arrow_field_reads.
  - intros m. unfold msg. destruct (ok s); [done|]. apply arrow_field_reads.
  - intros m. unfold context. destruct (ok s); [done|]. apply arrow_field_reads.
  - intros m. unfold has_context. destruct (ok s); [done|].
    apply (arrow_field_reads (λ st, bool_decide (State_context st ≠ None))).
  - apply ToString_reads.
  - apply operator_eq_reads.
  - intros m. unfold result, operator_ne. rewrite !bind_run, (operator_eq_reads s t m).
    unfold result. by destruct (operator_eq render s t m) as [[b m']|].
Qed.

(** ** [operator==] is an equivalence *)

(** X9: [s == s] is true in every memory, even without reading it, and
    [s == t] always does what [t == s] does. *)
Theorem operator_eq_refl_sym m s t :
  operator_eq render s s m = Some (true, m) ∧
  operator_eq render s t m = operator_eq render t s m.
Proof.
  split.
  - unfold operator_eq. by rewrite bool_decide_eq_true_2.
  - unfold operator_eq.
    destruct (decide (state_ s = state_ t)) as [E|E].
    + by rewrite !bool_decide_eq_true_2.
    + rewrite !bool_decide_eq_false_2 by congruence.
      destruct (ToString_cases m s) as [Hs|[x Hs]],
               (ToString_cases m t) as [Ht|[y Ht]];
        repeat (rewrite bind_run || rewrite Hs || rewrite Ht); try done.
      do 2 f_equal. apply bool_decide_ext. split; congruence.
Qed.

(** X10: if [s == t] and [t == u] are true then [s == u] is true. *)
Theorem operator_eq_trans m s t u :
  operator_eq render s t m = Some (true, m) →
  operator_eq render t u m = Some (true, m) →
  operator_eq render s u m = Some (true, m).
Proof.
  unfold operator_eq.
  destruct (decide (state_ s = state_ t)) as [E1|E1].
  { apply Status_eq in E1 as ->. by intros _. }
  destruct (decide (state_ t = state_ u)) as [E2|E2].
  { apply Status_eq in E2 as ->. by intros ? _. }
  rewrite (bool_decide_eq_false_2 _ E1), (bool_decide_eq_false_2 _ E2).
  destruct (ToString_cases m s) as [Hs|[x Hs]],
           (ToString_cases m t) as [Ht|[y Ht]],
           (ToString_cases m u) as [Hu|[z Hu]];
    repeat (rewrite bind_run || rewrite Hs || rewrite Ht || rewrite Hu); try done.
  intros [= Hxy%bool_decide_eq_true] [= Hyz%bool_decide_eq_true].
  case_bool_decide; [done|].
  repeat (rewrite bind_run || rewrite Hs || rewrite Hu).
  rewrite bool_decide_eq_true_2 by congruence. reflexivity.
Qed.

End readers_and_glue.

Section macros.
Context {Code : Type} `{!CodeRegistry Code} {U : Type}.
Variable render : Code → string → string.
Implicit Types (m : Mem Code U) (s t u : Status) (st : State Code) (l a : loc).

(** ** Test assertions *)

(** X11: for a live status [s] of a well-formed memory,
    [IsOK(StatusAdapter(s))] gives what [IsOK(s)] gives and leaves the
    memory exactly as it was (the adapter's temporary is released);
    [EXPECT_OK(s)] holds exactly when [s.ok()], [EXPECT_NOT_OK(s)]
    exactly when not; on a failure the assertion carries
    [s.ToString()]. *)
Theorem IsOK_StatusAdapter_Status m s :
  wf m → live m s →
  ∃ r, IsOK render s m = Some (r, m) ∧
       IsOK_StatusAdapter render s m = Some (r, m) ∧
       AssertionResult_bool r = ok s ∧
       EXPECT_OK render s m = Some (ok s, m) ∧
       EXPECT_NOT_OK render s m = Some (negb (ok s), m) ∧
       (ok s = false →
          ∃ txt, ToString render s m = Some (txt, m) ∧ r = AssertionFailure txt).
Proof.
  intros Hwf Hs.
  destruct (observe_is_Some m s Hwf Hs) as [[[c x] p] Ev].
  destruct (Status_copy_spec m s Hwf Hs)
    as (tmp & m1 & Hrun & _ & _ & _ & Hok & _ & _ & _ & _ & Hobs).
  destruct (Status_copy_cells m s Hwf Hs) as (tmp' & m1' & _ & Hrun' & _ & _ & _ & Hback).
  assert (tmp' = tmp ∧ m1' = m1) as [-> ->] by (split; congruence).
  pose proof (ToString_run render m s c x p Ev) as HTs.
  assert (HTt : ToString render tmp m1 = Some (render c x, m1))
    by (apply (ToString_run render m1 tmp c x p); congruence).
  set (r := if ok s then AssertionSuccess else AssertionFailure (render c x)).
  assert (H1 : IsOK render s m = Some (r, m)).
  { unfold IsOK, r. destruct (ok s); [done|]. by rewrite bind_run, HTs. }
  assert (H2 : IsOK_StatusAdapter render s m = Some (r, m)).
  { unfold IsOK_StatusAdapter, adapt, StatusAdapter_Status.
    rewrite bind_run, Hrun, bind_run. unfold IsOK, r. rewrite Hok.
    destruct (ok s);
      repeat (rewrite bind_run || rewrite HTt || rewrite Hback || simpl); done. }
  assert (H3 : AssertionResult_bool r = ok s) by (unfold r; by destruct (ok s)).
  exists r. do 3 (split; [done|]).
  split; [unfold EXPECT_OK; by rewrite bind_run, H2, <- H3|].
  split; [unfold EXPECT_NOT_OK; by rewrite bind_run, H2, <- H3|].
  intros E. exists (render c x). split; [done|]. unfold r. by rewrite E.
Qed.

(** ** PL_CHECK_OK *)

(** X12: let the argument of [PL_CHECK_OK_PREPEND], run once in [m],
    return the live status [x] and leave the well-formed memory [m1].  If
    [x] is [ok()] the check passes and the run goes on in [m1];
    otherwise the process is aborted with the given text, ": " and
    [x.ToString()], and [PL_CHECK_OK] aborts with "Bad Status: " and
    [x.ToString()]. *)
Theorem PL_CHECK_OK_PREPEND_checks (to_call : M Status) (text : string) m x m1 :
  to_call m = Some (x, m1) → wf m1 → live m1 x →
  (ok x = true →
     PL_CHECK_OK_PREPEND render to_call text m = Some (Continue, m1) ∧
     PL_CHECK_OK render to_call m = Some (Continue, m1)) ∧
  (ok x = false →
     ∃ txt, ToString render x m1 = Some (txt, m1) ∧
       PL_CHECK_OK_PREPEND render to_call text m
         = Some (Abort (text +:+ ": " +:+ txt), m1) ∧
       PL_CHECK_OK render to_call m = Some (Abort ("Bad Status: " +:+ txt), m1)).
Proof.
  intros Hcall Hwf Hx. unfold PL_CHECK_OK, PL_CHECK_OK_PREPEND. split.
  - intros Hok. rewrite !bind_run, Hcall, Hok.
    apply ok_true_iff in Hok. unfold Status_destroy. by rewrite bind_run, Hok.
  - intros Hok.
    destruct (observe_is_Some m1 x Hwf Hx) as [[[c t'] p] Ev].
    pose proof (ToString_run render m1 x c t' p Ev) as HT.
    exists (render c t'). split; [done|].
    by rewrite !bind_run, Hcall, Hok, !bind_run, HT.
Qed.

(** ** PL_RETURN_IF_ERROR releases its temporary *)

(** X13: when the argument of [PL_RETURN_IF_ERROR] returns a live failure
    [x] in the well-formed memory [m1], the early return leaves as many
    [State] records and [Any] payloads allocated as there were in [m1]
    (the returned copy replaces the temporary), the memory is still
    well-formed and the returned status is live in it. *)
Theorem PL_RETURN_IF_ERROR_no_leak (expr rest : M Status) m x m1 :
  expr m = Some (x, m1) → wf m1 → live m1 x → ok x = false →
  ∃ r m2, PL_RETURN_IF_ERROR expr rest m = Some (r, m2) ∧
    allocated m2 = allocated m1 ∧ wf m2 ∧ live m2 r.
Proof.
  intros Hexpr Hwf Hx Hok.
  destruct (Status_copy_spec m1 x Hwf Hx)
    as (r & m1' & Hrun & Hwf1 & Hr1 & _ & _ & Hsub & Hsuba & Hfr & _).
  destruct (Status_copy_cells m1 x Hwf Hx) as (r' & m1'' & n & Hrun' & Hn & _ & Hal & _).
  assert (r' = r ∧ m1'' = m1') as [-> ->] by (split; congruence).
  destruct (preserved_grow m1 m1' x Hsub Hsuba Hwf Hx) as (Hx1 & _ & _).
  destruct (Status_destroy_spec m1' x Hwf1 Hx1) as (m2 & Hdel & Hwf2 & _ & _ & Hframe).
  destruct (Status_destroy_cells m1' x Hwf1 Hx1) as (m2' & n' & Hdel' & Hn' & Hal' & _).
  assert (m2' = m2) as -> by congruence.
  assert (n' = n) as ->.
  { assert (result (owned x) m1' = result (owned x) m1) as E.
    { apply owned_agree. intros l [st El]%Hx. rewrite El. by eapply lookup_weaken. }
    congruence. }
  assert (Hrx : ∀ l, state_ r = Some l → state_ x ≠ Some l).
  { intros l Er Ex. destruct (Hx l Ex) as [st El]. rewrite (Hfr l Er) in El. done. }
  destruct (Hframe r Hr1 Hrx) as (Hr2 & _ & _).
  exists r, m2. split.
  { unfold PL_RETURN_IF_ERROR. rewrite bind_run, Hexpr. simpl. rewrite Hok. simpl.
    unfold adapt, StatusAdapter_Status. by rewrite bind_run, Hrun, bind_run, Hdel. }
  split; [|done].
  rewrite Hal in Hal'. unfold allocated in *. simpl in *.
  injection Hal' as H1 H2. f_equal; lia.
Qed.

(** ** The [State] constructor that packs a message *)

(** X14: in a well-formed memory, a [State] built from a code, a message
    and a possibly null message pointer, once placed on the heap under a
    [Status], gives a live status that reads the code, the message and
    the packed message (no context for a null pointer); with a null
    pointer the constructor allocates nothing; the payloads that were
    allocated before are untouched and the memory stays well-formed. *)
Theorem State_of_message_stored {Message : Type} (PackFrom : Message → Any)
    (c : Code) (x : string) (g : option Message) m :
  wf m →
  ∃ st m1 l m2,
    State_of_message Message PackFrom c x g m = Some (st, m1) ∧
    new_state st m1 = Some (l, m2) ∧
    wf m2 ∧ live m2 (mkStatus (Some l)) ∧
    result (observe (mkStatus (Some l))) m2 = Some (c, x, PackFrom <$> g) ∧
    result (has_context (mkStatus (Some l))) m2
      = Some (match g with Some _ => true | None => false end) ∧
    (g = None → m1 = m) ∧
    anys m ⊆ anys m1 ∧ states m1 = states m ∧ env m2 = env m.
Proof.
  intros Hwf. pose proof (fresh_state_None m) as Hf. pose proof (fresh_any_None m) as Hc.
  unfold State_of_message. destruct g as [g|].
  - set (a := fresh (dom (anys m))) in *. set (l := fresh (dom (states m))) in *.
    set (st := mkState c x (Some a)).
    set (m1 := {| states := states m; anys := <[a := PackFrom g]> (anys m);
                  env := env m |}).
    set (m2 := {| states := <[l := st]> (states m);
                  anys := <[a := PackFrom g]> (anys m); env := env m |}).
    assert (El : states m2 !! l = Some st) by apply lookup_insert_eq.
    exists st, m1, l, m2. split.
    { rewrite bind_run. unfold new_any. fold a. rewrite bind_run. unfold store_any.
      simpl. by rewrite lookup_insert_eq, insert_insert_eq. }
    split; [done|]. split; [by apply wf_alloc_ctx|].
    split; [intros ? [= <-]; eauto|]. split.
    { unfold result. rewrite (observe_stored m2 (mkStatus (Some l)) l st eq_refl El).
      simpl. by rewrite lookup_insert_eq. }
    split; [unfold result; by rewrite (has_context_stored m2 (mkStatus (Some l)) l st eq_refl El)|].
    split; [done|]. split; [by apply insert_subseteq|done].
  - set (l := fresh (dom (states m))) in *. set (st := mkState c x None).
    set (m2 := {| states := <[l := st]> (states m); anys := anys m; env := env m |}).
    assert (El : states m2 !! l = Some st) by apply lookup_insert_eq.
    exists st, m, l, m2. split; [done|]. split; [done|].
    split; [by apply wf_alloc|]. split; [intros ? [= <-]; eauto|].
    split; [unfold result; by rewrite (observe_stored m2 (mkStatus (Some l)) l st eq_refl El)|].
    split; [unfold result; by rewrite (has_context_stored m2 (mkStatus (Some l)) l st eq_refl El)|].
    done.
Qed.

End macros.

(** ** Closed instances for the heap and glue properties *)

Lemma s2_apart_s1 : ∀ l, state_ s2 = Some l → state_ s1 ≠ Some l.
Proof. by intros l [= <-]. Qed.

(** X1, witness: copying [s1], a failure with a context. *)
Lemma Status_copy_allocation_witness :
  wf mem2 ∧ live mem2 s1 ∧
  ∃ c m1 n, Status_copy s1 mem2 = Some (c, m1) ∧
    result (owned s1) mem2 = Some n ∧
    result (owned c) m1 = Some n ∧
    allocated m1 = (fst (allocated mem2) + fst n, snd (allocated mem2) + snd n) ∧
    (ok s1 = true → m1 = mem2) ∧
    env m1 = env mem2.
Proof.
  split; [exact wf_mem2|]. split; [exact live_mem2_s1|].
  exact (Status_copy_allocation mem2 s1 wf_mem2 live_mem2_s1).
Defined.

(** X2, witness: copying [s1] and destroying the copy. *)
Lemma Status_copy_destroy_roundtrip_witness :
  wf mem2 ∧ live mem2 s1 ∧
  ∃ c m1, Status_copy s1 mem2 = Some (c, m1) ∧ Status_destroy c m1 = Some ((), mem2).
Proof.
  split; [exact wf_mem2|]. split; [exact live_mem2_s1|].
  exact (Status_copy_destroy_roundtrip mem2 s1 wf_mem2 live_mem2_s1).
Defined.

(** X3, witness: destroying [s1]. *)
Lemma Status_destroy_releases_witness :
  wf mem2 ∧ live mem2 s1 ∧
  ∃ m2 n, Status_destroy s1 mem2 = Some ((), m2) ∧
    result (owned s1) mem2 = Some n ∧
    allocated mem2 = (fst (allocated m2) + fst n, snd (allocated m2) + snd n) ∧
    wf m2 ∧ env m2 = env mem2 ∧
    (ok s1 = true → m2 = mem2) ∧
    (ok s1 = false → observe s1 m2 = None ∧ Status_destroy s1 m2 = None).
Proof.
  split; [exact wf_mem2|]. split; [exact live_mem2_s1|].
  exact (Status_destroy_releases mem2 s1 wf_mem2 live_mem2_s1).
Defined.

(** X4, witness: assigning [s1] to [s2]. *)
Lemma operator_assign_balance_witness :
  wf mem2 ∧ live mem2 s2 ∧ live mem2 s1 ∧
  ∃ s' m' ns nt, operator_assign s2 s1 mem2 = Some (s', m') ∧
    result (owned s2) mem2 = Some ns ∧ result (owned s1) mem2 = Some nt ∧
    (fst (allocated m') + fst ns, snd (allocated m') + snd ns)
      = (fst (allocated mem2) + fst nt, snd (allocated mem2) + snd nt) ∧
    wf m' ∧ env m' = env mem2.
Proof.
  split; [exact wf_mem2|]. split; [exact live_mem2_s2|]. split; [exact live_mem2_s1|].
  exact (operator_assign_balance mem2 s2 s1 wf_mem2 live_mem2_s2 live_mem2_s1).
Defined.

(** X5, witness: copying [s1] while [s2] is around. *)
Lemma Status_copy_frame_witness :
  wf mem2 ∧ live mem2 s1 ∧ live mem2 s2 ∧
  ∃ c m1, Status_copy s1 mem2 = Some (c, m1) ∧
    wf m1 ∧ live m1 c ∧ live m1 s2 ∧
    result (observe s2) m1 = result (observe s2) mem2.
Proof.
  split; [exact wf_mem2|]. split; [exact live_mem2_s1|]. split; [exact live_mem2_s2|].
  exact (Status_copy_frame mem2 s1 s2 wf_mem2 live_mem2_s1 live_mem2_s2).
Defined.

(** X6, witness: destroying [s1] while [s2] is around. *)
Lemma Status_destroy_frame_witness :
  wf mem2 ∧ live mem2 s1 ∧ live mem2 s2 ∧
  (∀ l, state_ s2 = Some l → state_ s1 ≠ Some l) ∧
  ∃ m2, Status_destroy s1 mem2 = Some ((), m2) ∧
    live m2 s2 ∧ result (observe s2) m2 = result (observe s2) mem2.
Proof.
  split; [exact wf_mem2|]. split; [exact live_mem2_s1|]. split; [exact live_mem2_s2|].
  split; [exact s2_apart_s1|].
  exact (Status_destroy_frame mem2 s1 s2 wf_mem2 live_mem2_s1 live_mem2_s2 s2_apart_s1).
Defined.

(** X7, witness: assigning a success to [s1] while [s2] is around. *)
Lemma operator_assign_frame_witness :
  wf mem2 ∧ live mem2 s1 ∧ live mem2 (Status_OK : Status) ∧ live mem2 s2 ∧
  (∀ l, state_ s2 = Some l → state_ s1 ≠ Some l) ∧
  ∃ s' m', operator_assign s1 Status_OK mem2 = Some (s', m') ∧
    live m' s2 ∧ result (observe s2) m' = result (observe s2) mem2.
Proof.
  assert (live mem2 (Status_OK : Status)) as Hok by (by intros l [=]).
  split; [exact wf_mem2|]. split; [exact live_mem2_s1|]. split; [exact Hok|].
  split; [exact live_mem2_s2|]. split; [exact s2_apart_s1|].
  exact (operator_assign_frame mem2 s1 Status_OK s2 wf_mem2 live_mem2_s1 Hok
           live_mem2_s2 s2_apart_s1).
Defined.

(** X10, witness: three failures with the same code and message, held
    in three different [State] records. *)
Lemma operator_eq_trans_witness :
  operator_eq render3 s1 s2 mem3 = Some (true, mem3) ∧
  operator_eq render3 s2 s3 mem3 = Some (true, mem3) ∧
  operator_eq render3 s1 s3 mem3 = Some (true, mem3).
Proof.
  split; [reflexivity|]. split; [reflexivity|].
  exact (operator_eq_trans render3 mem3 s1 s2 s3 eq_refl eq_refl).
Defined.

(** X11, witness: the assertions on the failure [s1]. *)
Lemma IsOK_StatusAdapter_Status_witness :
  wf mem2 ∧ live mem2 s1 ∧
  ∃ r, IsOK render3 s1 mem2 = Some (r, mem2) ∧
       IsOK_StatusAdapter render3 s1 mem2 = Some (r, mem2) ∧
       AssertionResult_bool r = ok s1 ∧
       EXPECT_OK render3 s1 mem2 = Some (ok s1, mem2) ∧
       EXPECT_NOT_OK render3 s1 mem2 = Some (negb (ok s1), mem2) ∧
       (ok s1 = false →
          ∃ txt, ToString render3 s1 mem2 = Some (txt, mem2) ∧ r = AssertionFailure txt).
Proof.
  split; [exact wf_mem2|]. split; [exact live_mem2_s1|].
  exact (IsOK_StatusAdapter_Status render3 mem2 s1 wf_mem2 live_mem2_s1).
Defined.

(** X12, witness: checking the failing sub-call. *)
Lemma PL_CHECK_OK_PREPEND_checks_witness :
  sub_call NOT_FOUND "missing key" mem0 = Some (s1, mem1) ∧ wf mem1 ∧ live mem1 s1 ∧
  (ok s1 = true →
     PL_CHECK_OK_PREPEND render3 (sub_call NOT_FOUND "missing key") "startup" mem0
       = Some (Continue, mem1) ∧
     PL_CHECK_OK render3 (sub_call NOT_FOUND "missing key") mem0 = Some (Continue, mem1)) ∧
  (ok s1 = false →
     ∃ txt, ToString render3 s1 mem1 = Some (txt, mem1) ∧
       PL_CHECK_OK_PREPEND render3 (sub_call NOT_FOUND "missing key") "startup" mem0
         = Some (Abort ("startup" +:+ ": " +:+ txt), mem1) ∧
       PL_CHECK_OK render3 (sub_call NOT_FOUND "missing key") mem0
         = Some (Abort ("Bad Status: " +:+ txt), mem1)).
Proof.
  split; [exact sub_call_mem0|]. split; [exact wf_mem1|]. split; [exact live_mem1_s1|].
  exact (PL_CHECK_OK_PREPEND_checks render3 (sub_call NOT_FOUND "missing key") "startup"
           mem0 s1 mem1 sub_call_mem0 wf_mem1 live_mem1_s1).
Defined.

(** X13, witness: the early return on the failing sub-call. *)
Lemma PL_RETURN_IF_ERROR_no_leak_witness :
  sub_call NOT_FOUND "missing key" mem0 = Some (s1, mem1) ∧ wf mem1 ∧ live mem1 s1 ∧
  ok s1 = false ∧
  ∃ r m2, PL_RETURN_IF_ERROR (sub_call NOT_FOUND "missing key") sub_call_ok mem0
            = Some (r, m2) ∧
    allocated m2 = allocated mem1 ∧ wf m2 ∧ live m2 r.
Proof.
  split; [exact sub_call_mem0|]. split; [exact wf_mem1|]. split; [exact live_mem1_s1|].
  split; [reflexivity|].
  exact (PL_RETURN_IF_ERROR_no_leak (sub_call NOT_FOUND "missing key") sub_call_ok
           mem0 s1 mem1 sub_call_mem0 wf_mem1 live_mem1_s1 eq_refl).
Defined.

(** X14, witness: a [State] with a packed message, built in [mem2]. *)
Lemma State_of_message_stored_witness :
  wf mem2 ∧
  ∃ st m1 l m2,
    State_of_message string pack1 UNIMPLEMENTED "not yet" (Some "payload") mem2
      = Some (st, m1) ∧
    new_state st m1 = Some (l, m2) ∧
    wf m2 ∧ live m2 (mkStatus (Some l)) ∧
    result (observe (mkStatus (Some l))) m2
      = Some (UNIMPLEMENTED, "not yet", pack1 <$> Some "payload") ∧
    result (has_context (mkStatus (Some l))) m2 = Some true ∧
    (Some "payload" = None → m1 = mem2) ∧
    anys mem2 ⊆ anys m1 ∧ states m1 = states mem2 ∧ env m2 = env mem2.
Proof.
  split; [exact wf_mem2|].
  exact (State_of_message_stored pack1 UNIMPLEMENTED "not yet" (Some "payload") mem2
           wf_mem2).
Defined.

(** The assertions and the check, run on the failure [s1]. *)
Example glue_on_failure :
  result (EXPECT_OK render3 s1) mem2 = Some false ∧
  result (EXPECT_NOT_OK render3 s1) mem2 = Some true ∧
  result (IsOK render3 s1) mem2 = Some (AssertionFailure "NOT_FOUND: missing key") ∧
  result (PL_CHECK_OK render3 (sub_call NOT_FOUND "missing key")) mem0
    = Some (Abort "Bad Status: NOT_FOUND: missing key").
Proof. repeat split. Qed.

Lemma wf_mem3 : wf mem3.
Proof.
  exact (wf_alloc mem2 3%positive (mkState NOT_FOUND "missing key" None)
           wf_mem2 eq_refl eq_refl).
Qed.

Lemma live_mem3_s2 : live mem3 s2.
Proof. intros l [= <-]. by eexists. Qed.

Lemma live_mem3_s3 : live mem3 s3.
Proof. intros l [= <-]. by eexists. Qed.

(** X15, witness: [s2] and [s3] read the same and are held in different
    [State] records. *)
Lemma operator_eq_of_equal_reading_witness :
  wf mem3 ∧ live mem3 s2 ∧ live mem3 s3 ∧
  ∃ r, operator_eq render3 s2 s3 mem3 = Some (r, mem3) ∧
       operator_ne render3 s2 s3 mem3 = Some (negb r, mem3) ∧
       (ok s2 = true → ok s3 = true → r = true) ∧
       (result (observe s2) mem3 = result (observe s3) mem3 → r = true).
Proof.
  split; [exact wf_mem3|]. split; [exact live_mem3_s2|]. split; [exact live_mem3_s3|].
  exact (operator_eq_of_equal_reading render3 mem3 s2 s3 wf_mem3 live_mem3_s2 live_mem3_s3).
Defined.
